(** * Ball-Game: the physics core (Vector2D, Quadtree, PhysicsSystem, Ball,
      Engine), embedded from the JavaScript sources.

    JavaScript numbers are IEEE 754 binary64 values.  The code is embedded once,
    over an interface [Number] listing the operations on numbers that the
    sources use, and the interface has two instances:

    - [FloatNumber]: Rocq's primitive binary64 floats, which are the numbers
      JavaScript computes with; every definition runs on it by evaluation, and
      what is said of the program is said of this instance or of every
      instance;
    - [RealNumber]: the real numbers, exact arithmetic without rounding,
      overflow or NaN.  The program does not compute with them; the instance
      is used for a few statements about the geometry of boxes (a ball within
      the canvas, a box within a node), which comparisons decide, and each
      such statement says that it is over the reals. *)

From Stdlib Require Import List Bool String ZArith Lia.
From Stdlib Require Import Reals Lra.
From Stdlib Require Import Floats.
From Stdlib Require QArith.
Import ListNotations.

Set Warnings "-register-all".

(** ** Numbers *)

Class Number : Type := {
  num : Type;
  of_Z : Z -> num;             (* integer literals *)
  add : num -> num -> num;     (* a + b *)
  sub : num -> num -> num;     (* a - b *)
  mul : num -> num -> num;     (* a * b *)
  div : num -> num -> num;     (* a / b *)
  opp : num -> num;            (* -a *)
  sqrt : num -> num;           (* Math.sqrt(a) *)
  ltb : num -> num -> bool;    (* a < b *)
  leb : num -> num -> bool;    (* a <= b *)
  eqb : num -> num -> bool;    (* a === b *)
  (* a number above zero is not equal to zero *)
  ltb_zero_neq : forall m, ltb (of_Z 0) m = true -> eqb m (of_Z 0) = false
}.

Declare Scope js_scope.
Delimit Scope js_scope with js.
Infix "+" := add : js_scope.
Infix "-" := sub : js_scope.
Infix "*" := mul : js_scope.
Infix "/" := div : js_scope.
Notation "- a" := (opp a) : js_scope.
Infix "<?" := ltb : js_scope.
Infix "<=?" := leb : js_scope.
Infix "===" := eqb (at level 70, no associativity) : js_scope.
(* [a > b] and [a >= b] of the source: JavaScript evaluates them as [b < a] and
   [b <= a] *)
Notation "a >? b" := (ltb b a) (only parsing) : js_scope.
Notation "a >=? b" := (leb b a) (only parsing) : js_scope.

(** Decimal literals of the source: [0.8] is [8/10] rounded once, which is what
    the division of the two exact integers computes. *)
Definition lit_0_8 `{Number} : num := (of_Z 8 / of_Z 10)%js.
Definition lit_0_05 `{Number} : num := (of_Z 5 / of_Z 100)%js.

(** *** binary64 *)

Definition float_of_Z (z : Z) : float :=
  match z with
  | Z0 => PrimFloat.of_uint63 (Uint63.of_Z 0)
  | Zpos _ => PrimFloat.of_uint63 (Uint63.of_Z z)
  | Zneg p => PrimFloat.opp (PrimFloat.of_uint63 (Uint63.of_Z (Zpos p)))
  end.

Lemma float_ltb_zero_neq (m : float) :
  PrimFloat.ltb (float_of_Z 0) m = true -> PrimFloat.eqb m (float_of_Z 0) = false.
Proof.
  rewrite ltb_spec, eqb_spec.
  change (Prim2SF (float_of_Z 0)) with (S754_zero false).
  destruct (Prim2SF m) as [s | s | | s mm e]; try destruct s; cbn; congruence.
Qed.

Definition FloatNumber : Number := {|
  num := float;
  of_Z := float_of_Z;
  add := PrimFloat.add;
  sub := PrimFloat.sub;
  mul := PrimFloat.mul;
  div := PrimFloat.div;
  opp := PrimFloat.opp;
  sqrt := PrimFloat.sqrt;
  ltb := PrimFloat.ltb;
  leb := PrimFloat.leb;
  eqb := PrimFloat.eqb;
  ltb_zero_neq := float_ltb_zero_neq
|}.

(** *** real numbers *)

Definition Rltb (a b : R) : bool := if Rlt_dec a b then true else false.
Definition Rleb (a b : R) : bool := if Rle_dec a b then true else false.
Definition Reqb (a b : R) : bool := if Req_dec_T a b then true else false.

Lemma Rltb_true (a b : R) : Rltb a b = true <-> (a < b)%R.
Proof. unfold Rltb; destruct (Rlt_dec a b); split; (congruence || tauto). Qed.

Lemma Rltb_false (a b : R) : Rltb a b = false <-> (b <= a)%R.
Proof.
  unfold Rltb; destruct (Rlt_dec a b); split; try congruence; intros; lra.
Qed.

Lemma Rleb_true (a b : R) : Rleb a b = true <-> (a <= b)%R.
Proof. unfold Rleb; destruct (Rle_dec a b); split; (congruence || tauto). Qed.

Lemma Reqb_true (a b : R) : Reqb a b = true <-> a = b.
Proof. unfold Reqb; destruct (Req_dec_T a b); split; (congruence || tauto). Qed.

Lemma Reqb_false (a b : R) : Reqb a b = false <-> a <> b.
Proof. unfold Reqb; destruct (Req_dec_T a b); split; (congruence || tauto). Qed.

Lemma real_ltb_zero_neq (m : R) : Rltb (IZR 0) m = true -> Reqb m (IZR 0) = false.
Proof. rewrite Rltb_true, Reqb_false; lra. Qed.

Definition RealNumber : Number := {|
  num := R;
  of_Z := IZR;
  add := Rplus;
  sub := Rminus;
  mul := Rmult;
  div := Rdiv;
  opp := Ropp;
  sqrt := R_sqrt.sqrt;
  ltb := Rltb;
  leb := Rleb;
  eqb := Reqb;
  ltb_zero_neq := real_ltb_zero_neq
|}.

(** The literals [0.8] and [0.05] of the source are the binary64 numbers nearest
    to them, [0x1.999999999999ap-1] and [0x1.999999999999ap-5]. *)
Example lit_0_8_float : @lit_0_8 FloatNumber = 0x1.999999999999ap-1%float.
Proof. vm_compute. reflexivity. Qed.

Example lit_0_05_float : @lit_0_05 FloatNumber = 0x1.999999999999ap-5%float.
Proof. vm_compute. reflexivity. Qed.

(** ** Completions

    A method either returns or throws.  Methods that mutate their receiver are
    functions from the receiver before the call to the receiver after it; the
    ones that can throw also give the completion, and the receiver they give is
    the one the caller is left with when the exception propagates. *)

Inductive JsError : Type :=
| Error (message : string)            (* throw new Error(message) *)
| ReferenceError (identifier : string) (* an identifier that is not in scope *).

Inductive completion : Type :=
| Normal
| Throw (e : JsError).

Definition andThen {S : Type} (r : S * completion) (k : S -> S * completion)
  : S * completion :=
  match r with
  | (s, Normal) => k s
  | (s, Throw e) => (s, Throw e)
  end.

Notation "r ;; k" := (andThen r k) (at level 61, left associativity).

Definition ret {S : Type} (s : S) : S * completion := (s, Normal).

Definition throws {S : Type} (r : S * completion) : bool :=
  match snd r with Normal => false | Throw _ => true end.


(** An argument that is itself a call which can throw: [k] runs on the value of
    the call when it returns, and the state [s] is what is left when it throws. *)
Definition withArg {S A : Type} (arg : A * completion) (s : S) (k : A -> S)
  : S * completion :=
  match arg with
  | (a, Normal) => ret (k a)
  | (_, Throw e) => (s, Throw e)
  end.

(** ** Vector2D (utils/Vector2D.js) *)

Module Vector2D.
Section WithNumber.
Context `{Number}.
Open Scope js_scope.

Record t : Type := new { x : num; y : num }.

Definition clone (this : t) : t := new (x this) (y this).

Definition set (this : t) (x' y' : num) : t := new x' y'.

Definition add (this v : t) : t := new (x this + x v) (y this + y v).

Definition subtract (this v : t) : t := new (x this - x v) (y this - y v).

Definition multiply (this : t) (scalar : num) : t :=
  new (x this * scalar) (y this * scalar).

Definition divide (this : t) (scalar : num) : t * completion :=
  if scalar === of_Z 0 then (this, Throw (Error "Cannot divide vector by zero"))
  else ret (new (x this / scalar) (y this / scalar)).

Definition magnitude (this : t) : num :=
  sqrt (x this * x this + y this * y this).

Definition magnitudeSquared (this : t) : num :=
  x this * x this + y this * y this.

Definition normalize (this : t) : t * completion :=
  let mag := magnitude this in
  if mag >? of_Z 0 then divide this mag else ret this.

Definition dot (this v : t) : num := x this * x v + y this * y v.

Definition distance (this v : t) : num :=
  let dx := x this - x v in
  let dy := y this - y v in
  sqrt (dx * dx + dy * dy).

Definition limit (this : t) (max : num) : t * completion :=
  let magSq := magnitudeSquared this in
  if magSq >? max * max then
    normalize this ;; fun this => ret (multiply this max)
  else ret this.

Definition distanceSquared (this v : t) : num :=
  let dx := x this - x v in
  let dy := y this - y v in
  dx * dx + dy * dy.

End WithNumber.
End Vector2D.

(** ** Config (utils/Config.js): the constants the core reads *)

Module Config.
Section WithNumber.
Context `{Number}.

Definition maxVelocity : num := of_Z 500.   (* physics.limits.maxVelocity *)
Definition defaultSize : num := of_Z 20.    (* visual.ball.defaultSize *)

End WithNumber.
End Config.

(** ** Ball (entities/Ball.js)

    The fields the physics reads and writes; the colour, the collision list and
    the trail take no part in it.  [id] is a field like the others: the engine
    gives every ball it creates a fresh one, and a caller of the constructor
    may pass any. *)

Module Ball.
Section WithNumber.
Context `{Number}.
Open Scope js_scope.

Record t : Type := Build {
  id : Z;
  position : Vector2D.t;
  velocity : Vector2D.t;
  acceleration : Vector2D.t;
  size : num;
  gravity : num;
  mass : num;
  isFrozen : bool
}.

Definition set_position (this : t) (p : Vector2D.t) : t :=
  Build (id this) p (velocity this) (acceleration this) (size this)
        (gravity this) (mass this) (isFrozen this).

Definition set_velocity (this : t) (v : Vector2D.t) : t :=
  Build (id this) (position this) v (acceleration this) (size this)
        (gravity this) (mass this) (isFrozen this).

Definition set_acceleration (this : t) (a : Vector2D.t) : t :=
  Build (id this) (position this) (velocity this) a (size this)
        (gravity this) (mass this) (isFrozen this).

Definition set_isFrozen (this : t) (f : bool) : t :=
  Build (id this) (position this) (velocity this) (acceleration this)
        (size this) (gravity this) (mass this) f.

(** [a || b] on numbers: [b] when [a] is zero or NaN. *)
Definition orElse (a b : num) : num :=
  if (a === of_Z 0) || negb (a === a) then b else a.

(** The constructor, with every option given. *)
Definition new (id : Z) (x y vx vy size gravity : num) : t :=
  let size := orElse size Config.defaultSize in
  Build id (Vector2D.new x y)
        (Vector2D.new (orElse vx (of_Z 0)) (orElse vy (of_Z 0)))
        (Vector2D.new (of_Z 0) (of_Z 0))
        size gravity (size * size) false.

Definition update (this : t) (deltaTime : num) : t * completion :=
  if isFrozen this then ret this
  else
    let this :=
      if negb (gravity this === of_Z 0) then
        set_acceleration this
          (Vector2D.new (Vector2D.x (acceleration this)) (gravity this))
      else this in
    let this :=
      set_velocity this
        (Vector2D.add (velocity this)
           (Vector2D.new (Vector2D.x (acceleration this) * deltaTime)
                         (Vector2D.y (acceleration this) * deltaTime))) in
    let limited := Vector2D.limit (velocity this) Config.maxVelocity in
    (set_velocity this (fst limited), snd limited) ;; fun this =>
    let this :=
      set_position this
        (Vector2D.add (position this)
           (Vector2D.new (Vector2D.x (velocity this) * deltaTime)
                         (Vector2D.y (velocity this) * deltaTime))) in
    ret (set_acceleration this
           (Vector2D.set (acceleration this) (of_Z 0) (of_Z 0))).

Definition isCollidingWith (this other : t) : bool :=
  let distance := Vector2D.distance (position this) (position other) in
  let minDistance := size this + size other in
  distance <? minDistance.

(** The numeric variables a method of Ball.js can name besides [this]: the
    module declares only its imports and the class, [freeze] has no parameter
    and no local, and nothing in the repository defines a global. *)
Definition variables : list (string * num) := [].

(** Evaluating an identifier: its value, or a ReferenceError when nothing
    declares it. *)
Definition identifier (name : string) : num * completion :=
  match find (fun entry => String.eqb (fst entry) name) variables with
  | Some entry => ret (snd entry)
  | None => (of_Z 0, Throw (ReferenceError name))
  end.

(** [freeze]: the third statement is [this.acceleration.set(0, a,0)]; its
    arguments are evaluated before the call, and [set] reads its first two. *)
Definition freeze (this : t) : t * completion :=
  let this := set_isFrozen this true in
  let this :=
    set_velocity this (Vector2D.set (velocity this) (of_Z 0) (of_Z 0)) in
  withArg (identifier "a") this (fun a =>
    set_acceleration this (Vector2D.set (acceleration this) (of_Z 0) a)).

Definition unfreeze (this : t) : t * completion :=
  ret (set_isFrozen this false).

(** [applyForce]: the force is cloned, divided by the mass, and added to the
    acceleration. *)
Definition applyForce (this : t) (force : Vector2D.t) : t * completion :=
  withArg (Vector2D.divide (Vector2D.clone force) (mass this)) this
    (fun forceVector =>
       set_acceleration this (Vector2D.add (acceleration this) forceVector)).

End WithNumber.
End Ball.

(** ** Quadtree (utils/Quadtree.js) *)

Module Quadtree.
Section WithNumber.
Context `{Number}.
Open Scope js_scope.

Record Bounds : Type := bounds_of { x : num; y : num; width : num; height : num }.

(** What the tree is handed and what it keeps: references to objects that have
    a position and a size.  [current !== object] in [query] compares the
    references, not what the objects hold, so a reference is the address of
    the object, which is its identity, together with the ball found there. *)
Record Object : Type := ref { address : nat; ball : Ball.t }.

(** A node: [bounds], [capacity], [maxDepth], [depth], [objects], [divided],
    [children]. *)
Inductive t : Type :=
| Node (bounds : Bounds) (capacity maxDepth depth : Z)
       (objects : list Object) (divided : bool) (children : list t).

Definition bounds (this : t) : Bounds := let (b, _, _, _, _, _, _) := this in b.
Definition capacity (this : t) : Z := let (_, c, _, _, _, _, _) := this in c.
Definition maxDepth (this : t) : Z := let (_, _, m, _, _, _, _) := this in m.
Definition depth (this : t) : Z := let (_, _, _, d, _, _, _) := this in d.
Definition objects (this : t) : list Object :=
  let (_, _, _, _, o, _, _) := this in o.
Definition divided (this : t) : bool := let (_, _, _, _, _, d, _) := this in d.
Definition children (this : t) : list t := let (_, _, _, _, _, _, c) := this in c.

(** The constructor: a leaf without objects. *)
Definition new (bounds : Bounds) (capacity maxDepth depth : Z) : t :=
  Node bounds capacity maxDepth depth [] false [].

Definition set_objects (this : t) (objects : list Object) : t :=
  Node (bounds this) (capacity this) (maxDepth this) (depth this) objects
       (divided this) (children this).

Definition set_children (this : t) (children : list t) : t :=
  Node (bounds this) (capacity this) (maxDepth this) (depth this)
       (objects this) (divided this) children.

Definition set_divided (this : t) (divided : bool) : t :=
  Node (bounds this) (capacity this) (maxDepth this) (depth this)
       (objects this) divided (children this).

Definition contains (this : t) (object : Object) : bool :=
  let px := Vector2D.x (Ball.position (ball object)) in
  let py := Vector2D.y (Ball.position (ball object)) in
  let size := Ball.size (ball object) in
  let b := bounds this in
  (px - size >=? x b) &&
  (px + size <=? x b + width b) &&
  (py - size >=? y b) &&
  (py + size <=? y b + height b).

Definition intersects (this : t) (object : Object) : bool :=
  let px := Vector2D.x (Ball.position (ball object)) in
  let py := Vector2D.y (Ball.position (ball object)) in
  let size := Ball.size (ball object) in
  let b := bounds this in
  negb ((px - size >? x b + width b) ||
        (px + size <? x b) ||
        (py - size >? y b + height b) ||
        (py + size <? y b)).

(** What [insert] hands back: [true], [false], or [undefined] when it returns
    the value of a call that has no [return]. *)
Inductive returned : Type :=
| Returned (b : bool)
| Undefined.

(** [insert], [subdivide] and [insertToChildren] call one another; [insert] is
    the recursive one and the other two take the [insert] they call.  The
    recursion is on a bound [fuel] of nested calls, and [None] says that the
    bound was too small. *)
Section Methods.
Variable insert : t -> Object -> option (t * returned).

(** [for (const child of this.children) if (child.contains(object))
    child.insert(object)]: the children after the loop. *)
Fixpoint insertInto (children : list t) (object : Object) : option (list t) :=
  match children with
  | [] => Some []
  | child :: rest =>
      match (if contains child object
             then option_map fst (insert child object) else Some child) with
      | None => None
      | Some child' => option_map (cons child') (insertInto rest object)
      end
  end.

Definition insertToChildren (this : t) (object : Object) : option t :=
  option_map (set_children this) (insertInto (children this) object).

(** [for (const object of this.objects) this.insertToChildren(object)] *)
Fixpoint redistribute (this : t) (objects : list Object) : option t :=
  match objects with
  | [] => Some this
  | object :: rest =>
      match insertToChildren this object with
      | None => None
      | Some this' => redistribute this' rest
      end
  end.

Definition subdivide (this : t) : option t :=
  let x := x (bounds this) in
  let y := y (bounds this) in
  let halfWidth := width (bounds this) / of_Z 2 in
  let halfHeight := height (bounds this) / of_Z 2 in
  let nextDepth := (depth this + 1)%Z in
  let child bx by_ :=
    new (bounds_of bx by_ halfWidth halfHeight)
        (capacity this) (maxDepth this) nextDepth in
  (* children[0..3] are assigned; an array longer than that keeps its tail *)
  let this :=
    set_children this
      ([ child (x + halfWidth) y;                  (* Northeast *)
         child x y;                                (* Northwest *)
         child x (y + halfHeight);                 (* Southwest *)
         child (x + halfWidth) (y + halfHeight) ]  (* Southeast *)
       ++ skipn 4 (children this)) in
  let this := set_divided this true in
  option_map (fun this => set_objects this [])
             (redistribute this (objects this)).

End Methods.

Fixpoint insert (fuel : nat) (this : t) (object : Object)
  : option (t * returned) :=
  match fuel with
  | O => None
  | S fuel =>
      if negb (intersects this object) then Some (this, Returned false)
      else if negb (divided this)
              && (Z.of_nat (List.length (objects this)) <? capacity this)%Z then
        Some (set_objects this (objects this ++ [object]), Returned true)
      else if (depth this >=? maxDepth this)%Z then
        Some (set_objects this (objects this ++ [object]), Returned true)
      else
        match (if negb (divided this)
               then subdivide (insert fuel) this else Some this) with
        | None => None
        | Some this =>
            option_map (fun this => (this, Undefined))
                       (insertToChildren (insert fuel) this object)
        end
  end.

(** [query(object, found)]: [found] with the objects of every node reached
    pushed onto it, except the query object itself ([current !== object]). *)
Fixpoint query (this : t) (object : Object) (found : list Object)
  : list Object :=
  match this with
  | Node _ _ _ _ objects divided children =>
      if negb (intersects this object) then found
      else
        let found :=
          found ++ filter (fun current =>
                             negb (address current =? address object)%nat)
                          objects in
        if divided then
          fold_left (fun found child => query child object found)
                    children found
        else found
  end.

(** [clear]: the children are cleared and then dropped with the array that
    held them, so what is left of them is not reachable from this node. *)
Definition clear (this : t) : t :=
  let this := set_objects this [] in
  if divided this then set_divided (set_children this []) false else this.

End WithNumber.
End Quadtree.

(** ** PhysicsSystem (systems/PhysicsSystem.js)

    [collisionPairs] holds pairs of references into the array of balls; the
    pairs are kept as pairs of indices into that array, which is the store the
    resolution writes to.  The balls of the array are taken to be different
    objects, as they are in the engine's array, where each is made with
    [new Ball]; so [resolveCollision] is handed two different objects. *)

Module PhysicsSystem.
Section WithNumber.
Context `{Number}.
Open Scope js_scope.

Definition areColliding (ballA ballB : Ball.t) : bool :=
  let distance := Vector2D.distance (Ball.position ballA) (Ball.position ballB) in
  let minDistance := Ball.size ballA + Ball.size ballB in
  distance <? minDistance.

(** The inner loop, [for (let j = i + 1; j < balls.length; j++)]. *)
Definition pairsFrom (balls : list Ball.t) (i : nat) (ballA : Ball.t)
  : list (nat * nat) :=
  flat_map
    (fun j =>
       match nth_error balls j with
       | None => []
       | Some ballB =>
           if Ball.isFrozen ballB then []
           else if areColliding ballA ballB then [(i, j)]
           else []
       end)
    (seq (i + 1) (List.length balls - (i + 1))).

Definition generateCollisionPairs (balls : list Ball.t) : list (nat * nat) :=
  flat_map
    (fun i =>
       match nth_error balls i with
       | None => []
       | Some ballA =>
           if Ball.isFrozen ballA then [] else pairsFrom balls i ballA
       end)
    (seq 0 (List.length balls)).

(** [if (!ball.isFrozen) ball.velocity.subtract/add(impulse.clone().divide(ball.mass))] *)
Definition applyImpulse (combine : Vector2D.t -> Vector2D.t -> Vector2D.t)
  (impulse : Vector2D.t) (ball : Ball.t) : Ball.t * completion :=
  if negb (Ball.isFrozen ball) then
    withArg (Vector2D.divide (Vector2D.clone impulse) (Ball.mass ball)) ball
      (fun change => Ball.set_velocity ball (combine (Ball.velocity ball) change))
  else ret ball.

(** The same on the pair of balls, which is the state of [resolveCollision]. *)
Definition onA (f : Ball.t -> Ball.t * completion) (pair : Ball.t * Ball.t)
  : (Ball.t * Ball.t) * completion :=
  let r := f (fst pair) in ((fst r, snd pair), snd r).

Definition onB (f : Ball.t -> Ball.t * completion) (pair : Ball.t * Ball.t)
  : (Ball.t * Ball.t) * completion :=
  let r := f (snd pair) in ((fst pair, fst r), snd r).

Definition resolveCollision (ballA ballB : Ball.t) (deltaTime : num)
  : (Ball.t * Ball.t) * completion :=
  let normal :=
    Vector2D.new
      (Vector2D.x (Ball.position ballB) - Vector2D.x (Ball.position ballA))
      (Vector2D.y (Ball.position ballB) - Vector2D.y (Ball.position ballA)) in
  let distance := Vector2D.magnitude normal in
  match (if distance === of_Z 0
         then ret (Vector2D.set normal (of_Z 1) (of_Z 0))
         else Vector2D.normalize normal) with
  | (_, Throw e) => ((ballA, ballB), Throw e)
  | (normal, Normal) =>
    let overlap := (Ball.size ballA + Ball.size ballB) - distance in
    let totalMass := Ball.mass ballA + Ball.mass ballB in
    let ratioA := Ball.mass ballB / totalMass in
    let ratioB := Ball.mass ballA / totalMass in
    let ballA :=
      if negb (Ball.isFrozen ballA) then
        Ball.set_position ballA
          (Vector2D.subtract (Ball.position ballA)
             (Vector2D.multiply (Vector2D.clone normal) (overlap * ratioA)))
      else ballA in
    let ballB :=
      if negb (Ball.isFrozen ballB) then
        Ball.set_position ballB
          (Vector2D.add (Ball.position ballB)
             (Vector2D.multiply (Vector2D.clone normal) (overlap * ratioB)))
      else ballB in
    if Ball.isFrozen ballA && Ball.isFrozen ballB then ret (ballA, ballB)
    else
      let relativeVelocity :=
        Vector2D.new
          (Vector2D.x (Ball.velocity ballB) - Vector2D.x (Ball.velocity ballA))
          (Vector2D.y (Ball.velocity ballB) - Vector2D.y (Ball.velocity ballA)) in
      let velocityAlongNormal := Vector2D.dot relativeVelocity normal in
      if velocityAlongNormal >? of_Z 0 then ret (ballA, ballB)
      else
        let restitution := lit_0_8 in
        let j := (- (of_Z 1 + restitution)) * velocityAlongNormal in
        let j := j / ((of_Z 1 / Ball.mass ballA) + (of_Z 1 / Ball.mass ballB)) in
        let impulse := Vector2D.multiply (Vector2D.clone normal) j in
        onA (applyImpulse Vector2D.subtract impulse) (ballA, ballB) ;;
        onB (applyImpulse Vector2D.add impulse) ;; fun pair =>
        let friction := lit_0_05 in
        let tangent := Vector2D.new (- Vector2D.y normal) (Vector2D.x normal) in
        let velocityAlongTangent := Vector2D.dot relativeVelocity tangent in
        let jt := (- velocityAlongTangent) * friction in
        let jt := jt / ((of_Z 1 / Ball.mass ballA) + (of_Z 1 / Ball.mass ballB)) in
        let tangentImpulse := Vector2D.multiply (Vector2D.clone tangent) jt in
        onA (applyImpulse Vector2D.subtract tangentImpulse) pair ;;
        onB (applyImpulse Vector2D.add tangentImpulse)
  end.

(** Writing a ball back to the array. *)
Fixpoint store (balls : list Ball.t) (i : nat) (ball : Ball.t) : list Ball.t :=
  match balls, i with
  | [], _ => []
  | _ :: rest, O => ball :: rest
  | b :: rest, S i => b :: store rest i ball
  end.

Fixpoint resolveCollisions (collisionPairs : list (nat * nat))
  (balls : list Ball.t) (deltaTime : num) : list Ball.t * completion :=
  match collisionPairs with
  | [] => ret balls
  | (i, j) :: rest =>
      match nth_error balls i, nth_error balls j with
      | Some ballA, Some ballB =>
          let r := resolveCollision ballA ballB deltaTime in
          (store (store balls i (fst (fst r))) j (snd (fst r)), snd r) ;;
          fun balls => resolveCollisions rest balls deltaTime
      | _, _ => resolveCollisions rest balls deltaTime
      end
  end.

(** [update]: [updateQuadtree] has an empty body, so the canvas dimensions it is
    given are not read. *)
Definition update (balls : list Ball.t) (deltaTime : num)
  : list Ball.t * completion :=
  if (List.length balls <=? 1)%nat then ret balls
  else resolveCollisions (generateCollisionPairs balls) balls deltaTime.

End WithNumber.
End PhysicsSystem.

(** ** Engine (core/Engine.js) *)

Module Engine.
Section WithNumber.
Context `{Number}.
Open Scope js_scope.

(** What [renderingSystem.getCanvasDimensions()] returns. *)
Record Dimensions : Type := dimensions_of { width : num; height : num }.

Record t : Type := Build {
  balls : list Ball.t;
  isPaused : bool;
  canvas : Dimensions
}.

(** [balls.forEach(f)]: the balls after the loop; a throw of [f] ends it. *)
Fixpoint forEach (f : Ball.t -> Ball.t * completion) (balls : list Ball.t)
  : list Ball.t * completion :=
  match balls with
  | [] => ret []
  | ball :: rest =>
      match f ball with
      | (ball', Normal) =>
          let r := forEach f rest in (ball' :: fst r, snd r)
      | (ball', Throw e) => (ball' :: rest, Throw e)
      end
  end.

Definition set_px (ball : Ball.t) (v : num) : Ball.t :=
  Ball.set_position ball (Vector2D.new v (Vector2D.y (Ball.position ball))).
Definition set_py (ball : Ball.t) (v : num) : Ball.t :=
  Ball.set_position ball (Vector2D.new (Vector2D.x (Ball.position ball)) v).
Definition set_vx (ball : Ball.t) (v : num) : Ball.t :=
  Ball.set_velocity ball (Vector2D.new v (Vector2D.y (Ball.velocity ball))).
Definition set_vy (ball : Ball.t) (v : num) : Ball.t :=
  Ball.set_velocity ball (Vector2D.new (Vector2D.x (Ball.velocity ball)) v).

(** The X half of the boundary checks of [update]. *)
Definition checkX (dimensions : Dimensions) (ball : Ball.t) : Ball.t :=
  if Vector2D.x (Ball.position ball) - Ball.size ball <? of_Z 0 then
    let ball := set_px ball (Ball.size ball) in
    set_vx ball ((- Vector2D.x (Ball.velocity ball)) * lit_0_8)
  else if Vector2D.x (Ball.position ball) + Ball.size ball >? width dimensions then
    let ball := set_px ball (width dimensions - Ball.size ball) in
    set_vx ball ((- Vector2D.x (Ball.velocity ball)) * lit_0_8)
  else ball.

(** The Y half. *)
Definition checkY (dimensions : Dimensions) (ball : Ball.t) : Ball.t :=
  if Vector2D.y (Ball.position ball) - Ball.size ball <? of_Z 0 then
    let ball := set_py ball (Ball.size ball) in
    set_vy ball ((- Vector2D.y (Ball.velocity ball)) * lit_0_8)
  else if Vector2D.y (Ball.position ball) + Ball.size ball >? height dimensions then
    let ball := set_py ball (height dimensions - Ball.size ball) in
    set_vy ball ((- Vector2D.y (Ball.velocity ball)) * lit_0_8)
  else ball.

(** The callback of the second [forEach] of [update]: the boundary checks. *)
Definition boundaryChecks (dimensions : Dimensions) (ball : Ball.t) : Ball.t :=
  checkY dimensions (checkX dimensions ball).

Definition set_balls (this : t) (balls : list Ball.t) : t :=
  Build balls (isPaused this) (canvas this).

Definition update (this : t) (deltaTime : num) : t * completion :=
  if isPaused this then ret this
  else
    let updated := forEach (fun ball => Ball.update ball deltaTime) (balls this) in
    (set_balls this (fst updated), snd updated) ;; fun this =>
    let dimensions := canvas this in
    let checked :=
      forEach (fun ball => ret (boundaryChecks dimensions ball)) (balls this) in
    (set_balls this (fst checked), snd checked).

(** [balls.findIndex(p)]: [None] stands for -1. *)
Fixpoint findIndex (p : Ball.t -> bool) (balls : list Ball.t) : option nat :=
  match balls with
  | [] => None
  | ball :: rest =>
      if p ball then Some O else option_map S (findIndex p rest)
  end.

(** [balls.splice(index, 1)]: the array without the element at [index]. *)
Definition splice1 (balls : list Ball.t) (index : nat) : list Ball.t :=
  firstn index balls ++ skipn (S index) balls.

(** [removeBall]: [destroy] writes only the collision list and the trail of the
    ball that is then removed. *)
Definition removeBall (this : t) (ballId : Z) : t * bool :=
  match findIndex (fun ball => (Ball.id ball =? ballId)%Z) (balls this) with
  | Some index => (set_balls this (splice1 (balls this) index), true)
  | None => (this, false)
  end.

Definition clearAllBalls (this : t) : t := set_balls this [].

Definition pause (this : t) : t := Build (balls this) true (canvas this).
Definition resume (this : t) : t := Build (balls this) false (canvas this).
Definition togglePause (this : t) : t :=
  Build (balls this) (negb (isPaused this)) (canvas this).

(** The engine together with its counter [nextBallId]. *)
Record counted : Type := Counted { engine : t; nextBallId : Z }.

(** The constructor's engine: no balls, not paused, ids from 1. *)
Definition create (canvas : Dimensions) : counted :=
  Counted (Build [] false canvas) 1.

(** [addBall], with the position given (by the caller, or drawn at random when
    the caller leaves it out): the ball gets the id [nextBallId++]. *)
Definition addBall (this : counted) (x y vx vy size gravity : num)
  : counted * Ball.t :=
  let id := nextBallId this in
  let ball := Ball.new id x y vx vy size gravity in
  (Counted (set_balls (engine this) (balls (engine this) ++ [ball]))
           (id + 1)%Z,
   ball).

Definition removeCounted (this : counted) (ballId : Z) : counted * bool :=
  let r := removeBall (engine this) ballId in
  (Counted (fst r) (nextBallId this), snd r).

End WithNumber.
End Engine.

(** * Vocabulary of the properties, and the data of the examples *)

(** ** Engine: one tick on one ball, and the balls of the examples *)

(** The ball of the example: [position.x = 5], [size = 20], [velocity.x = -30]. *)
Definition bounceExample : @Ball.t FloatNumber :=
  @Ball.new FloatNumber 1 5%float 300%float (-30)%float 0%float 20%float 0%float.

(** An engine that holds this ball and nothing else. *)
Definition bouncing : @Engine.t FloatNumber :=
  @Engine.Build FloatNumber [bounceExample] false
    (@Engine.dimensions_of FloatNumber 800%float 600%float).

(** One tick on one ball: integration, then the boundary checks. *)
Definition tick `{Number} (d : Engine.Dimensions) (dt : num) (ball : Ball.t)
  : Ball.t :=
  Engine.boundaryChecks d (fst (Ball.update ball dt)).

(** Two engines with the same first ball, next to a slow ball in one and to a
    fast, frozen ball that overlaps it in the other. *)
Definition runOne : @Engine.t FloatNumber :=
  @Engine.Build FloatNumber
    [ @Ball.new FloatNumber 1 100%float 100%float 30%float 0%float 20%float 9.75%float;
      @Ball.new FloatNumber 2 300%float 100%float 1%float 0%float 20%float 9.75%float ]
    false (@Engine.dimensions_of FloatNumber 800%float 600%float).

Definition runTwo : @Engine.t FloatNumber :=
  @Engine.Build FloatNumber
    [ @Ball.new FloatNumber 1 100%float 100%float 30%float 0%float 20%float 9.75%float;
      Ball.set_isFrozen
        (@Ball.new FloatNumber 2 110%float 100%float (-400)%float 0%float 30%float 0%float)
        true ]
    false (@Engine.dimensions_of FloatNumber 800%float 600%float).

(** A ball with the default gravity. *)
Definition heavyBall : @Ball.t FloatNumber :=
  @Ball.new FloatNumber 1 100%float 100%float 0%float 0%float 20%float 9.75%float.

(** Over the reals: the ball lies within the canvas. *)
Definition insideCanvas (d : @Engine.Dimensions RealNumber)
  (ball : @Ball.t RealNumber) : Prop :=
  (Ball.size ball <= Vector2D.x (Ball.position ball)
   <= Engine.width d - Ball.size ball)%R
  /\ (Ball.size ball <= Vector2D.y (Ball.position ball)
      <= Engine.height d - Ball.size ball)%R.

(** An engine over the reals with a frozen ball inside the canvas and a frozen
    ball across the left edge. *)
Definition parked : @Engine.t RealNumber :=
  @Engine.Build RealNumber
    [ @Ball.Build RealNumber 1
        (@Vector2D.new RealNumber 100%R 100%R) (@Vector2D.new RealNumber 0%R 0%R)
        (@Vector2D.new RealNumber 0%R 0%R) 20%R 0%R 400%R true;
      @Ball.Build RealNumber 2
        (@Vector2D.new RealNumber 5%R 100%R) (@Vector2D.new RealNumber (-30)%R 0%R)
        (@Vector2D.new RealNumber 0%R 0%R) 20%R 0%R 400%R true ]
    false (@Engine.dimensions_of RealNumber 800%R 600%R).

(** The ids in use are pairwise different and below the counter. *)
Definition freshIds `{Number} (c : Engine.counted) : Prop :=
  NoDup (map Ball.id (Engine.balls (Engine.engine c)))
  /\ forall ball, In ball (Engine.balls (Engine.engine c)) ->
                  (Ball.id ball < Engine.nextBallId c)%Z.

(** The engines that [addBall] and [removeBall] reach from the constructor. *)
Inductive reachable `{Number} : Engine.counted -> Prop :=
| reached_create canvas : reachable (Engine.create canvas)
| reached_add c x y vx vy size gravity :
    reachable c -> reachable (fst (Engine.addBall c x y vx vy size gravity))
| reached_remove c ballId :
    reachable c -> reachable (fst (Engine.removeCounted c ballId)).

(** A running engine on binary64: two balls added. *)
Definition twoAdded : @Engine.counted FloatNumber :=
  fst (Engine.addBall
         (fst (Engine.addBall
                 (Engine.create (@Engine.dimensions_of FloatNumber 800%float 600%float))
                 100%float 100%float 0%float 0%float 20%float 9.75%float))
         200%float 100%float 0%float 0%float 20%float 9.75%float).

(** The id, size, gravity, mass and frozen flag of a ball. *)
Definition bodyOf `{Number} (ball : Ball.t) : Z * num * num * num * bool :=
  (Ball.id ball, Ball.size ball, Ball.gravity ball, Ball.mass ball,
   Ball.isFrozen ball).

(** ** PhysicsSystem: detection *)

(** The rule of detection in the words of the specification, [d < r1 + r2],
    with the distance between the centres and the sum of the radii computed
    in the arithmetic at hand. *)
Definition centreDistance `{Number} (ballA ballB : Ball.t) : num :=
  let dx := (Vector2D.x (Ball.position ballA) - Vector2D.x (Ball.position ballB))%js in
  let dy := (Vector2D.y (Ball.position ballA) - Vector2D.y (Ball.position ballB))%js in
  sqrt (dx * dx + dy * dy)%js.

Definition reach `{Number} (ballA ballB : Ball.t) : num :=
  (Ball.size ballA + Ball.size ballB)%js.

(** The rational number that a binary64 value stands for; the infinities and
    NaN stand for none. *)
Definition exact (f : float) : option QArith_base.Q :=
  match Prim2SF f with
  | S754_zero _ => Some (QArith_base.inject_Z 0)
  | S754_finite s m e =>
      Some (QArith_base.Qmult (QArith_base.inject_Z (cond_Zopp s (Zpos m)))
                              (QArith_base.Qpower (QArith_base.inject_Z 2) e))
  | _ => None
  end.

Definition Qltb (a b : QArith_base.Q) : bool := negb (QArith_base.Qle_bool b a).

(** The squared distance between the centres and the sum of the radii of two
    binary64 balls, in exact rational arithmetic. *)
Definition exactGap (ballA ballB : @Ball.t FloatNumber)
  : option (QArith_base.Q * QArith_base.Q) :=
  match exact (Vector2D.x (Ball.position ballA)),
        exact (Vector2D.y (Ball.position ballA)),
        exact (Vector2D.x (Ball.position ballB)),
        exact (Vector2D.y (Ball.position ballB)),
        exact (Ball.size ballA), exact (Ball.size ballB) with
  | Some ax, Some ay, Some bx, Some by_, Some ra, Some rb =>
      let dx := QArith_base.Qminus ax bx in
      let dy := QArith_base.Qminus ay by_ in
      Some (QArith_base.Qplus (QArith_base.Qmult dx dx) (QArith_base.Qmult dy dy),
            QArith_base.Qplus ra rb)
  | _, _, _, _, _, _ => None
  end.

(** [d < r1 + r2] for the numbers the two balls stand for, without rounding:
    as [d] is not negative, this is [0 < r1 + r2] and [d * d < (r1 + r2)^2]. *)
Definition overlapExactly (ballA ballB : @Ball.t FloatNumber) : option bool :=
  option_map
    (fun gap =>
       Qltb (QArith_base.inject_Z 0) (snd gap)
       && Qltb (fst gap) (QArith_base.Qmult (snd gap) (snd gap)))
    (exactGap ballA ballB).

(** [d = r1 + r2] for the numbers the two balls stand for, without rounding. *)
Definition touchExactly (ballA ballB : @Ball.t FloatNumber) : option bool :=
  option_map
    (fun gap =>
       QArith_base.Qle_bool (QArith_base.inject_Z 0) (snd gap)
       && QArith_base.Qeq_bool (fst gap) (QArith_base.Qmult (snd gap) (snd gap)))
    (exactGap ballA ballB).

(** A ball of the given radius, at rest at [(x, y)]. *)
Definition disc (id : Z) (x y radius : float) : @Ball.t FloatNumber :=
  @Ball.new FloatNumber id x y 0%float 0%float radius 0%float.

(** Radii 5.1 and 19 with the centres 12 and 20.9 apart along the axes: the
    binary64 numbers nearest to these decimals lie a little more than
    [r1 + r2] apart. *)
Definition grazingLeft : @Ball.t FloatNumber :=
  disc 1 0x1.44a6666666666p+9%float 0x1.e666666666666p+2%float
         0x1.4666666666666p+2%float.

Definition grazingRight : @Ball.t FloatNumber :=
  disc 2 0x1.4aa6666666666p+9%float 28.5%float 19%float.

(** Radii 2 and 3 with the centres a little less than 5 apart. *)
Definition nearLeft : @Ball.t FloatNumber := disc 1 0%float 0%float 2%float.

Definition nearRight : @Ball.t FloatNumber :=
  disc 2 3%float 0x1.fffffffffffffp+1%float 3%float.

(** Whole numbers: radii [2k] and [3k] with the centres at [(0, 0)] and
    [(3k, 4k)], which are [5k] apart, for [k = 105478429]. *)
Definition kissingLeft : @Ball.t FloatNumber :=
  disc 1 0%float 0%float 210956858%float.

Definition kissingRight : @Ball.t FloatNumber :=
  disc 2 316435287%float 421913716%float 316435287%float.

(** Two free balls far apart. *)
Definition farApart : list (@Ball.t FloatNumber) :=
  [ @Ball.new FloatNumber 1 100%float 100%float 10%float 0%float 20%float 0%float;
    @Ball.new FloatNumber 2 400%float 100%float (-10)%float 0%float 20%float 0%float ].

(** ** PhysicsSystem: resolution *)

(** The normal and the overlap as [resolveCollision] computes them, before it
    moves anything. *)
Definition contactNormal `{Number} (ballA ballB : Ball.t)
  : Vector2D.t * completion :=
  let normal :=
    Vector2D.new
      (Vector2D.x (Ball.position ballB) - Vector2D.x (Ball.position ballA))%js
      (Vector2D.y (Ball.position ballB) - Vector2D.y (Ball.position ballA))%js in
  let distance := Vector2D.magnitude normal in
  if (distance === of_Z 0)%js
  then ret (Vector2D.set normal (of_Z 1) (of_Z 0))
  else Vector2D.normalize normal.

Definition penetration `{Number} (ballA ballB : Ball.t) : num :=
  ((Ball.size ballA + Ball.size ballB)
   - Vector2D.magnitude
       (Vector2D.new
          (Vector2D.x (Ball.position ballB) - Vector2D.x (Ball.position ballA))
          (Vector2D.y (Ball.position ballB) - Vector2D.y (Ball.position ballA))))%js.

Definition positionsOf `{Number} (pair : Ball.t * Ball.t)
  : Vector2D.t * Vector2D.t :=
  (Ball.position (fst pair), Ball.position (snd pair)).

(** The positional correction as the specification words it: each body moves
    along the normal by its share of the penetration depth, a frozen body does
    not move, and next to a frozen body the other one moves by the whole
    depth. *)
Definition correctionAsSpecified `{Number} (ballA ballB : Ball.t) (dt : num)
  : Prop :=
  let normal := fst (contactNormal ballA ballB) in
  let depth := penetration ballA ballB in
  let totalMass := (Ball.mass ballA + Ball.mass ballB)%js in
  let moveA :=
    if Ball.isFrozen ballB then depth
    else (depth * (Ball.mass ballB / totalMass))%js in
  let moveB :=
    if Ball.isFrozen ballA then depth
    else (depth * (Ball.mass ballA / totalMass))%js in
  positionsOf (fst (PhysicsSystem.resolveCollision ballA ballB dt))
  = (if Ball.isFrozen ballA then Ball.position ballA
     else Vector2D.subtract (Ball.position ballA)
            (Vector2D.multiply normal moveA),
     if Ball.isFrozen ballB then Ball.position ballB
     else Vector2D.add (Ball.position ballB)
            (Vector2D.multiply normal moveB)).


(** The relative velocity along the normal as [resolveCollision] computes it. *)
Definition velocityAlongNormal `{Number} (ballA ballB : Ball.t) : num :=
  Vector2D.dot
    (Vector2D.new
       (Vector2D.x (Ball.velocity ballB) - Vector2D.x (Ball.velocity ballA))%js
       (Vector2D.y (Ball.velocity ballB) - Vector2D.y (Ball.velocity ballA))%js)
    (fst (contactNormal ballA ballB)).


(** A frozen ball of radius 20 at (100, 100) and a free one of radius 20 at
    (130, 100): they overlap by 10. *)
Definition frozenObstacle : @Ball.t FloatNumber :=
  Ball.set_isFrozen
    (@Ball.new FloatNumber 1 100%float 100%float 0%float 0%float 20%float 0%float)
    true.

Definition freeNeighbour : @Ball.t FloatNumber :=
  @Ball.new FloatNumber 2 130%float 100%float 0%float 0%float 20%float 0%float.







(** The fields of a ball besides its position and its velocity. *)
Definition restOf `{Number} (ball : Ball.t)
  : Z * num * num * num * bool * Vector2D.t :=
  (Ball.id ball, Ball.size ball, Ball.gravity ball, Ball.mass ball,
   Ball.isFrozen ball, Ball.acceleration ball).

(** What a resolution pass may do to a ball: it keeps every field besides the
    position and the velocity, and it keeps a frozen ball whole. *)
Definition kept `{Number} (before after : Ball.t) : Prop :=
  restOf after = restOf before
  /\ (Ball.isFrozen before = true -> after = before).

(** A ball whose radius is so small that its mass, the square of the radius,
    underflows to zero, next to an ordinary ball that overlaps it. *)
Definition speck : @Ball.t FloatNumber :=
  @Ball.new FloatNumber 1 100%float 100%float 0%float 0%float 0x1p-600%float
            0%float.

Definition ordinary : @Ball.t FloatNumber :=
  @Ball.new FloatNumber 2 110%float 100%float 0%float 0%float 20%float 0%float.

(** Two overlapping balls that move apart. *)
Definition departingLeft : @Ball.t FloatNumber :=
  @Ball.new FloatNumber 1 95%float 100%float (-50)%float 0%float 20%float 0%float.

Definition departingRight : @Ball.t FloatNumber :=
  @Ball.new FloatNumber 2 125%float 100%float 50%float 0%float 20%float 0%float.

(** ** Quadtree: the arena of the examples *)

(** A 100 by 100 arena indexed with capacity 1, and four objects, each at an
    address of its own: a ball across the centre lines, a ball inside the
    north-west quadrant, a query ball that overlaps the first, and a ball
    inside the south-east quadrant. *)
Definition arena : @Quadtree.t FloatNumber :=
  @Quadtree.new FloatNumber
    (@Quadtree.bounds_of FloatNumber 0%float 0%float 100%float 100%float) 1 5 0.

(** The same arena with room for two objects. *)
Definition roomyArena : @Quadtree.t FloatNumber :=
  @Quadtree.new FloatNumber
    (@Quadtree.bounds_of FloatNumber 0%float 0%float 100%float 100%float) 2 5 0.

Definition straddler : @Quadtree.Object FloatNumber :=
  Quadtree.ref 1
    (@Ball.new FloatNumber 1 50%float 50%float 0%float 0%float 10%float 0%float).

Definition cornerBall : @Quadtree.Object FloatNumber :=
  Quadtree.ref 2
    (@Ball.new FloatNumber 2 25%float 25%float 0%float 0%float 5%float 0%float).

Definition probe : @Quadtree.Object FloatNumber :=
  Quadtree.ref 3
    (@Ball.new FloatNumber 3 55%float 55%float 0%float 0%float 10%float 0%float).

Definition farBall : @Quadtree.Object FloatNumber :=
  Quadtree.ref 4
    (@Ball.new FloatNumber 4 75%float 75%float 0%float 0%float 5%float 0%float).

(** Another object, at an address of its own, that holds what [cornerBall]
    holds, id included. *)
Definition lookalike : @Quadtree.Object FloatNumber :=
  Quadtree.ref 5 (Quadtree.ball cornerBall).

Definition quadrant (x y : float) (objects : list (@Quadtree.Object FloatNumber))
  : @Quadtree.t FloatNumber :=
  Quadtree.set_objects
    (@Quadtree.new FloatNumber
       (@Quadtree.bounds_of FloatNumber x y 50%float 50%float) 1 5 1)
    objects.

(** The arena once it is subdivided, with [cornerBall] in its north-west
    quadrant and nothing else anywhere. *)
Definition dividedArena : @Quadtree.t FloatNumber :=
  Quadtree.Node
    (@Quadtree.bounds_of FloatNumber 0%float 0%float 100%float 100%float) 1 5 0
    [] true
    [ quadrant 50%float 0%float [];
      quadrant 0%float 0%float [cornerBall];
      quadrant 0%float 50%float [];
      quadrant 50%float 50%float [] ].

(** A tree as the constructor and [insert] build it: a node that is not divided
    has no children, and the children of a divided node are such trees, one
    level deeper and with the same depth limit. *)
Fixpoint wellFormed `{Number} (this : Quadtree.t) : Prop :=
  match this with
  | Quadtree.Node _ _ maxDepth depth _ divided children =>
      if divided then
        fold_right
          (fun child rest =>
             (wellFormed child
              /\ Quadtree.maxDepth child = maxDepth
              /\ Quadtree.depth child = (depth + 1)%Z) /\ rest)
          True children
      else children = []
  end.

Definition childOf `{Number} (maxDepth depth : Z) (child : Quadtree.t) : Prop :=
  wellFormed child
  /\ Quadtree.maxDepth child = maxDepth
  /\ Quadtree.depth child = (depth + 1)%Z.

(** The centre of [object] lies in the bounding box of [query], so the circle
    of [object] overlaps that box. *)
Definition centreInBox `{Number} (object query : Ball.t) : bool :=
  let ox := Vector2D.x (Ball.position object) in
  let oy := Vector2D.y (Ball.position object) in
  let qx := Vector2D.x (Ball.position query) in
  let qy := Vector2D.y (Ball.position query) in
  ((qx - Ball.size query <=? ox) && (ox <=? qx + Ball.size query)
   && (qy - Ball.size query <=? oy) && (oy <=? qy + Ball.size query))%js.

(** Whether a list of found objects holds [object] itself. *)
Definition holds `{Number} (found : list Quadtree.Object)
  (object : Quadtree.Object) : bool :=
  existsb (fun current =>
             (Quadtree.address current =? Quadtree.address object)%nat) found.

(** The objects of a list that are not the query object itself. *)
Definition others `{Number} (objects : list Quadtree.Object)
  (object : Quadtree.Object) : list Quadtree.Object :=
  filter (fun current =>
            negb (Quadtree.address current =? Quadtree.address object)%nat)
         objects.

(** Every object stored in the tree, node by node; the children of a node that
    is not divided are not part of the tree ([query] does not visit them). *)
Fixpoint allObjects `{Number} (this : Quadtree.t) : list Quadtree.Object :=
  match this with
  | Quadtree.Node _ _ _ _ objects divided children =>
      objects ++ (if divided then flat_map allObjects children else [])
  end.

(** A tree in which every stored object intersects the bounds of the node that
    stores it, a divided node stores nothing and lies above the depth limit,
    and a node that is not divided has no children. *)
Fixpoint tidy `{Number} (this : Quadtree.t) : Prop :=
  match this with
  | Quadtree.Node bounds capacity maxDepth depth objects divided children =>
      Forall (fun object =>
                Quadtree.intersects
                  (Quadtree.new bounds capacity maxDepth depth) object = true)
             objects
      /\ if divided then
           objects = [] /\ (depth < maxDepth)%Z
           /\ fold_right (fun child rest => tidy child /\ rest) True children
         else children = []
  end.

(** The nodes that a node becomes by calls of [insert] that answer true or
    false: the calls that end in the node itself and do not subdivide it. *)
Inductive settled `{Number} : Quadtree.t -> Quadtree.t -> Prop :=
| settled_here this : settled this this
| settled_insert fuel this object this' answer this'' :
    Quadtree.insert fuel this object = Some (this', Quadtree.Returned answer) ->
    settled this' this'' ->
    settled this this''.

(** A quadrant over the reals and a ball inside it. *)
Definition realQuadrant : @Quadtree.t RealNumber :=
  @Quadtree.new RealNumber
    (@Quadtree.bounds_of RealNumber 0%R 0%R 50%R 50%R) 1 5 1.

Definition realBall : @Quadtree.Object RealNumber :=
  Quadtree.ref 1
    (@Ball.Build RealNumber 1
       (@Vector2D.new RealNumber 25%R 25%R) (@Vector2D.new RealNumber 0%R 0%R)
       (@Vector2D.new RealNumber 0%R 0%R) 5%R 0%R 25%R false).

(** * Properties *)

(** ** binary64: comparisons, and the operations that are symmetric *)

(** Two numbers that are [===] are not [<]. *)
Lemma float_eqb_not_ltb (x y : float) :
  PrimFloat.eqb x y = true -> PrimFloat.ltb x y = false.
Proof.
  rewrite eqb_spec, ltb_spec. unfold SFeqb, SFltb.
  destruct (SFcompare (Prim2SF x) (Prim2SF y)) as [[| |]|]; congruence.
Qed.

(** A number that is not [===] to itself is NaN, and NaN is below nothing and
    nothing is below it. *)
Lemma float_nan_not_ltb (x y : float) :
  PrimFloat.eqb x x = false \/ PrimFloat.eqb y y = false ->
  PrimFloat.ltb x y = false.
Proof.
  rewrite !eqb_spec, ltb_spec. unfold SFeqb, SFltb.
  assert (Hnan : forall z, (match SFcompare z z with
                            | Some Eq => true | _ => false end) = false ->
                           z = S754_nan).
  { intros [s|s| |s m e]; cbn; try reflexivity.
    - discriminate.
    - destruct s; discriminate.
    - destruct s; rewrite Z.compare_refl, Pos.compare_cont_refl; discriminate. }
  intros [Hx|Hy].
  - rewrite (Hnan _ Hx). reflexivity.
  - rewrite (Hnan _ Hy). now destruct (Prim2SF x).
Qed.

Section SpecFloat.
Variables prec emax : Z.

(** Rounding does not look at the sign. *)
Lemma binary_round_aux_opp s m e l :
  binary_round_aux prec emax (negb s) m e l
  = SFopp (binary_round_aux prec emax s m e l).
Proof.
  unfold binary_round_aux.
  destruct (shr_fexp prec emax m e l) as [mrs' e'].
  destruct (shr_fexp prec emax _ e' loc_Exact) as [mrs'' e''].
  destruct (shr_m mrs''); [reflexivity| |reflexivity].
  destruct (e'' <=? emax - prec)%Z; reflexivity.
Qed.

Lemma binary_round_opp s m e :
  binary_round prec emax (negb s) m e = SFopp (binary_round prec emax s m e).
Proof.
  unfold binary_round.
  destruct (shl_align m e _) as [mz ez]. apply binary_round_aux_opp.
Qed.

Lemma binary_normalize_opp m e :
  m <> 0%Z ->
  binary_normalize prec emax (- m) e false
  = SFopp (binary_normalize prec emax m e false).
Proof.
  destruct m as [|p|p]; intros Hm; [contradiction| |]; simpl.
  - apply (binary_round_opp false).
  - apply (binary_round_opp true).
Qed.

Lemma SFmul_opp_opp r :
  SFmul prec emax (SFopp r) (SFopp r) = SFmul prec emax r r.
Proof. destruct r as [s|s| |s m e]; simpl; try reflexivity; now destruct s. Qed.

(** [y - x] is the opposite of [x - y], or both are [+0]. *)
Lemma SFsub_swap x y :
  SFsub prec emax y x = SFopp (SFsub prec emax x y)
  \/ SFsub prec emax y x = SFsub prec emax x y.
Proof.
  destruct x as [sx|sx| |sx mx ex], y as [sy|sy| |sy my ey];
    try (left; reflexivity);
    try (destruct sx, sy; simpl; auto; fail);
    try (destruct sx; simpl; auto; fail);
    try (destruct sy; simpl; auto; fail).
  unfold SFsub. rewrite (Z.min_comm ey ex).
  set (a := cond_Zopp sx _). set (b := cond_Zopp sy _).
  destruct (Z.eq_dec (a - b) 0) as [Hz|Hz].
  - right. replace (b - a)%Z with 0%Z by lia. now rewrite Hz.
  - left. replace (b - a)%Z with (- (a - b))%Z by lia.
    now apply binary_normalize_opp.
Qed.

Lemma SFsub_swap_sqr x y :
  SFmul prec emax (SFsub prec emax x y) (SFsub prec emax x y)
  = SFmul prec emax (SFsub prec emax y x) (SFsub prec emax y x).
Proof.
  destruct (SFsub_swap x y) as [-> | ->];
    [symmetry; apply SFmul_opp_opp|reflexivity].
Qed.

Lemma SFadd_comm x y : SFadd prec emax x y = SFadd prec emax y x.
Proof.
  destruct x as [sx|sx| |sx mx ex], y as [sy|sy| |sy my ey];
    try reflexivity; try (destruct sx, sy; reflexivity).
  unfold SFadd. rewrite (Z.min_comm ey ex). f_equal. apply Z.add_comm.
Qed.

Lemma binary_round_aux_not_negative m e l :
  SFltb (binary_round_aux prec emax false m e l) (S754_zero false) = false.
Proof.
  unfold binary_round_aux.
  destruct (shr_fexp prec emax m e l) as [mrs' e'].
  destruct (shr_fexp prec emax _ e' loc_Exact) as [mrs'' e''].
  destruct (shr_m mrs''); [reflexivity| |reflexivity].
  destruct (e'' <=? emax - prec)%Z; reflexivity.
Qed.

Lemma SFsqrt_not_negative x :
  SFltb (SFsqrt prec emax x) (S754_zero false) = false.
Proof.
  destruct x as [s|s| |s m e]; try reflexivity.
  - now destruct s.
  - destruct s; [reflexivity|]. unfold SFsqrt.
    destruct (SFsqrt_core_binary prec emax (Z.pos m) e) as [[mz ez] lz].
    apply binary_round_aux_not_negative.
Qed.

End SpecFloat.

(** [x + y] is [y + x], for every pair of binary64 numbers, NaN and the
    infinities included. *)
Lemma float_add_comm (x y : float) : PrimFloat.add x y = PrimFloat.add y x.
Proof. apply Prim2SF_inj. rewrite !add_spec. apply SFadd_comm. Qed.

(** [(x - y) * (x - y)] is [(y - x) * (y - x)]. *)
Lemma float_sub_swap_sqr (x y : float) :
  PrimFloat.mul (PrimFloat.sub x y) (PrimFloat.sub x y)
  = PrimFloat.mul (PrimFloat.sub y x) (PrimFloat.sub y x).
Proof. apply Prim2SF_inj. rewrite !mul_spec, !sub_spec. apply SFsub_swap_sqr. Qed.

(** [Math.sqrt] gives no number below zero. *)
Lemma float_sqrt_not_negative (x : float) :
  PrimFloat.ltb (PrimFloat.sqrt x) 0%float = false.
Proof.
  rewrite ltb_spec, sqrt_spec.
  change (Prim2SF 0%float) with (S754_zero false).
  apply SFsqrt_not_negative.
Qed.

(** ** Vector2D.divide *)

Lemma divide_zero `{Number} (v : Vector2D.t) (s : num) :
  (s === of_Z 0)%js = true ->
  Vector2D.divide v s = (v, Throw (Error "Cannot divide vector by zero")).
Proof. intros Hs. unfold Vector2D.divide. now rewrite Hs. Qed.

Lemma divide_nonzero `{Number} (v : Vector2D.t) (s : num) :
  (s === of_Z 0)%js = false ->
  Vector2D.divide v s =
  (Vector2D.new (Vector2D.x v / s)%js (Vector2D.y v / s)%js, Normal).
Proof. intros Hs. unfold Vector2D.divide. now rewrite Hs. Qed.

(** [normalize] divides only by a magnitude above zero, so it does not throw. *)
Lemma normalize_returns `{Number} (v : Vector2D.t) :
  snd (Vector2D.normalize v) = Normal.
Proof.
  unfold Vector2D.normalize.
  destruct (of_Z 0 <? Vector2D.magnitude v)%js eqn:Hmag; [|reflexivity].
  now rewrite (divide_nonzero v _ (ltb_zero_neq _ Hmag)).
Qed.

Lemma limit_returns `{Number} (v : Vector2D.t) (max : num) :
  snd (Vector2D.limit v max) = Normal.
Proof.
  unfold Vector2D.limit.
  destruct (_ <? _)%js; [|reflexivity].
  pose proof (normalize_returns v) as Hn.
  destruct (Vector2D.normalize v) as [v' c]; simpl in Hn; subst c.
  reflexivity.
Qed.

(** C7. For every vector [v]: [divide(v, s)] with [s === 0] throws the error
    "Cannot divide vector by zero" and leaves [v] as it was, and with any other
    [s] it returns, with both components divided by [s].  This holds in every
    model of numbers; on binary64 the scalars that are [=== 0] are [0] and
    [-0], and [NaN] and the infinities are not. *)
Theorem divide_by_zero_throws :
  (forall (N : Number) (v : Vector2D.t) (s : num),
      ((s === of_Z 0)%js = true ->
       Vector2D.divide v s = (v, Throw (Error "Cannot divide vector by zero")))
      /\ ((s === of_Z 0)%js = false ->
          throws (Vector2D.divide v s) = false
          /\ fst (Vector2D.divide v s) =
             Vector2D.new (Vector2D.x v / s)%js (Vector2D.y v / s)%js))
  /\ (forall v : @Vector2D.t FloatNumber,
         Vector2D.divide v 0%float
         = (v, Throw (Error "Cannot divide vector by zero"))
         /\ Vector2D.divide v (-0)%float
            = (v, Throw (Error "Cannot divide vector by zero"))
         /\ throws (Vector2D.divide v nan) = false
         /\ throws (Vector2D.divide v infinity) = false)
  /\ (forall (v : @Vector2D.t RealNumber) (s : R),
         (s = 0%R ->
          Vector2D.divide v s
          = (v, Throw (Error "Cannot divide vector by zero")))
         /\ (s <> 0%R -> throws (Vector2D.divide v s) = false)).
Proof.
  split; [|split].
  - intros N v s; split; intros Hs.
    + now apply divide_zero.
    + now rewrite (divide_nonzero v s Hs).
  - intros v; repeat split; reflexivity.
  - intros v s; split; intros Hs.
    + apply divide_zero. now apply Reqb_true.
    + rewrite (@divide_nonzero RealNumber v s); [reflexivity|].
      now apply Reqb_false.
Qed.

(** ** Ball.freeze and Ball.unfreeze *)

(** C10. For every ball, [freeze()] sets [isFrozen] and zeroes the velocity,
    then throws a ReferenceError for the identifier [a] while evaluating the
    arguments of the acceleration reset, so the acceleration keeps its value;
    [unfreeze()] returns and changes [isFrozen] only. *)
Theorem freeze_throws_ReferenceError (N : Number) (ball : Ball.t) :
  Ball.freeze ball =
  (Ball.Build (Ball.id ball) (Ball.position ball)
              (Vector2D.new (of_Z 0) (of_Z 0)) (Ball.acceleration ball)
              (Ball.size ball) (Ball.gravity ball) (Ball.mass ball) true,
   Throw (ReferenceError "a"))
  /\ Ball.unfreeze ball =
     (Ball.Build (Ball.id ball) (Ball.position ball) (Ball.velocity ball)
                 (Ball.acceleration ball) (Ball.size ball) (Ball.gravity ball)
                 (Ball.mass ball) false,
      Normal).
Proof. split; reflexivity. Qed.

(** ** Engine.update *)

(** The X check reads and writes the x components only, the Y check the y
    components only. *)
Lemma checkY_x `{Number} (d : Engine.Dimensions) (ball : Ball.t) :
  Vector2D.x (Ball.position (Engine.checkY d ball)) = Vector2D.x (Ball.position ball)
  /\ Vector2D.x (Ball.velocity (Engine.checkY d ball)) = Vector2D.x (Ball.velocity ball)
  /\ Ball.size (Engine.checkY d ball) = Ball.size ball.
Proof.
  unfold Engine.checkY.
  destruct (_ <? _)%js; [|destruct (_ <? _)%js]; repeat split.
Qed.

Lemma checkX_y `{Number} (d : Engine.Dimensions) (ball : Ball.t) :
  Vector2D.y (Ball.position (Engine.checkX d ball)) = Vector2D.y (Ball.position ball)
  /\ Vector2D.y (Ball.velocity (Engine.checkX d ball)) = Vector2D.y (Ball.velocity ball)
  /\ Ball.size (Engine.checkX d ball) = Ball.size ball.
Proof.
  unfold Engine.checkX.
  destruct (_ <? _)%js; [|destruct (_ <? _)%js]; repeat split.
Qed.

Lemma checkX_x `{Number} (d : Engine.Dimensions) (ball : Ball.t) :
  let px := Vector2D.x (Ball.position ball) in
  let vx := Vector2D.x (Ball.velocity ball) in
  let size := Ball.size ball in
  (Vector2D.x (Ball.position (Engine.checkX d ball)),
   Vector2D.x (Ball.velocity (Engine.checkX d ball)))
  = (if px - size <? of_Z 0 then (size, (- vx) * lit_0_8)
     else if px + size >? Engine.width d
          then (Engine.width d - size, (- vx) * lit_0_8)
          else (px, vx))%js.
Proof.
  cbv zeta; unfold Engine.checkX.
  destruct (_ <? _)%js; [|destruct (_ <? _)%js]; reflexivity.
Qed.

Lemma checkY_y `{Number} (d : Engine.Dimensions) (ball : Ball.t) :
  let py := Vector2D.y (Ball.position ball) in
  let vy := Vector2D.y (Ball.velocity ball) in
  let size := Ball.size ball in
  (Vector2D.y (Ball.position (Engine.checkY d ball)),
   Vector2D.y (Ball.velocity (Engine.checkY d ball)))
  = (if py - size <? of_Z 0 then (size, (- vy) * lit_0_8)
     else if py + size >? Engine.height d
          then (Engine.height d - size, (- vy) * lit_0_8)
          else (py, vy))%js.
Proof.
  cbv zeta; unfold Engine.checkY.
  destruct (_ <? _)%js; [|destruct (_ <? _)%js]; reflexivity.
Qed.

Lemma boundaryChecks_axes `{Number} (d : Engine.Dimensions) (ball : Ball.t) :
  let after := Engine.boundaryChecks d ball in
  let px := Vector2D.x (Ball.position ball) in
  let py := Vector2D.y (Ball.position ball) in
  let vx := Vector2D.x (Ball.velocity ball) in
  let vy := Vector2D.y (Ball.velocity ball) in
  let size := Ball.size ball in
  (Vector2D.x (Ball.position after), Vector2D.x (Ball.velocity after))
  = (if px - size <? of_Z 0 then (size, (- vx) * lit_0_8)
     else if px + size >? Engine.width d
          then (Engine.width d - size, (- vx) * lit_0_8)
          else (px, vx))%js
  /\ (Vector2D.y (Ball.position after), Vector2D.y (Ball.velocity after))
     = (if py - size <? of_Z 0 then (size, (- vy) * lit_0_8)
        else if py + size >? Engine.height d
             then (Engine.height d - size, (- vy) * lit_0_8)
             else (py, vy))%js.
Proof.
  cbv zeta; unfold Engine.boundaryChecks; split.
  - destruct (checkY_x d (Engine.checkX d ball)) as (-> & -> & _).
    apply checkX_x.
  - destruct (checkX_y d ball) as (Hp & Hv & Hs).
    pose proof (checkY_y d (Engine.checkX d ball)) as Hy; cbv zeta in Hy.
    now rewrite Hp, Hv, Hs in Hy.
Qed.

(** [Ball.update] returns: the only call in it that could throw is [limit]. *)
Lemma Ball_update_returns `{Number} (ball : Ball.t) (dt : num) :
  snd (Ball.update ball dt) = Normal.
Proof.
  unfold Ball.update.
  destruct (Ball.isFrozen ball); [reflexivity|].
  cbv zeta.
  match goal with
  | |- context [Vector2D.limit ?v ?m] =>
      pose proof (limit_returns v m) as Hl;
      destruct (Vector2D.limit v m) as [v' c]
  end.
  simpl in Hl; subst c. reflexivity.
Qed.

(** A loop over callbacks that return visits every ball: it is a [map]. *)
Lemma forEach_map `{Number} (f : Ball.t -> Ball.t * completion)
  (balls : list Ball.t) :
  (forall ball, snd (f ball) = Normal) ->
  Engine.forEach f balls = (map (fun ball => fst (f ball)) balls, Normal).
Proof.
  intros Hf; induction balls as [|ball rest IH]; [reflexivity|].
  simpl. specialize (Hf ball).
  destruct (f ball) as [ball' c]; simpl in Hf; subst c.
  now rewrite IH.
Qed.

(** A running engine returns from [update] with every ball replaced by its own
    [tick]; a paused one is left as it is. *)
Lemma Engine_update_ticks `{Number} (e : Engine.t) (dt : num) :
  Engine.update e dt =
  if Engine.isPaused e then (e, Normal)
  else (Engine.set_balls e (map (tick (Engine.canvas e) dt) (Engine.balls e)),
        Normal).
Proof.
  unfold Engine.update.
  destruct (Engine.isPaused e) eqn:Hp; [reflexivity|].
  cbv zeta.
  rewrite (forEach_map _ _ (fun ball => Ball_update_returns ball dt)).
  simpl.
  rewrite forEach_map by reflexivity.
  simpl. rewrite map_map. reflexivity.
Qed.

(** C8. [Engine.update] returns; on an engine that is not paused it replaces
    every ball by what the boundary checks make of the ball that [Ball.update]
    leaves, and it leaves a paused engine as it is.  The boundary checks, for
    every ball and each axis on its own: a ball past the low edge
    ([p - size < 0]) gets [p = size], one past the high edge ([p + size] above
    the canvas extent) gets [p = extent - size], and in both cases the
    velocity component becomes [-v * 0.8]; otherwise the component is kept.
    The ball with [position.x = 5], [size = 20], [velocity.x = -30] ends with
    [position.x = 20] and [velocity.x = 24] (binary64): after the checks on
    any canvas, and after [update] on the engine that holds it. *)
Theorem boundary_containment :
  (forall (N : Number) (e : Engine.t) (dt : num),
      Engine.update e dt
      = (if Engine.isPaused e then e
         else Engine.set_balls e
                (map (fun ball =>
                        Engine.boundaryChecks (Engine.canvas e)
                          (fst (Ball.update ball dt)))
                     (Engine.balls e)),
         Normal))
  /\ (forall (N : Number) (d : Engine.Dimensions) (ball : Ball.t),
      let after := Engine.boundaryChecks d ball in
      let px := Vector2D.x (Ball.position ball) in
      let py := Vector2D.y (Ball.position ball) in
      let vx := Vector2D.x (Ball.velocity ball) in
      let vy := Vector2D.y (Ball.velocity ball) in
      let size := Ball.size ball in
      (Vector2D.x (Ball.position after), Vector2D.x (Ball.velocity after))
      = (if px - size <? of_Z 0 then (size, (- vx) * lit_0_8)
         else if px + size >? Engine.width d
              then (Engine.width d - size, (- vx) * lit_0_8)
              else (px, vx))%js
      /\ (Vector2D.y (Ball.position after), Vector2D.y (Ball.velocity after))
         = (if py - size <? of_Z 0 then (size, (- vy) * lit_0_8)
            else if py + size >? Engine.height d
                 then (Engine.height d - size, (- vy) * lit_0_8)
                 else (py, vy))%js)
  /\ (forall d : @Engine.Dimensions FloatNumber,
         let after := Engine.boundaryChecks d bounceExample in
         Vector2D.x (Ball.position after) = 20%float
         /\ Vector2D.x (Ball.velocity after) = 24%float)
  /\ map (fun ball =>
            (Vector2D.x (Ball.position ball), Vector2D.x (Ball.velocity ball)))
         (Engine.balls (fst (Engine.update bouncing 0.5%float)))
     = [(20%float, 24%float)].
Proof.
  split; [|split; [exact (@boundaryChecks_axes)|split]].
  - intros N e dt. rewrite Engine_update_ticks.
    destruct (Engine.isPaused e); reflexivity.
  - intros d; cbv zeta.
    destruct (@boundaryChecks_axes FloatNumber d bounceExample) as [Hx _].
    injection Hx as -> ->. split; reflexivity.
  - vm_compute. reflexivity.
Qed.

(** C9. Two runs of [Engine.update] with the same elapsed time, the same canvas
    and the same pause flag, on any two collections of balls that hold the same
    ball at index [i]: both return, and they leave the same ball at index [i];
    nothing about the other balls reaches it. *)
Theorem update_noninterference (N : Number) (e1 e2 : Engine.t) (dt : num)
  (i : nat) (ball : Ball.t) :
  Engine.isPaused e1 = Engine.isPaused e2 ->
  Engine.canvas e1 = Engine.canvas e2 ->
  nth_error (Engine.balls e1) i = Some ball ->
  nth_error (Engine.balls e2) i = Some ball ->
  snd (Engine.update e1 dt) = Normal
  /\ snd (Engine.update e2 dt) = Normal
  /\ nth_error (Engine.balls (fst (Engine.update e1 dt))) i
     = nth_error (Engine.balls (fst (Engine.update e2 dt))) i
  /\ nth_error (Engine.balls (fst (Engine.update e1 dt))) i
     = Some (if Engine.isPaused e1 then ball
             else Engine.boundaryChecks (Engine.canvas e1)
                    (fst (Ball.update ball dt))).
Proof.
  intros Hp Hc H1 H2.
  rewrite !Engine_update_ticks, <- Hp, <- Hc.
  destruct (Engine.isPaused e1); simpl.
  - rewrite H1, H2. auto.
  - rewrite !nth_error_map, H1, H2. auto.
Qed.

(** The theorem on [runOne] and [runTwo], for the ball at index 0. *)
Lemma update_noninterference_witness :
  snd (Engine.update runOne 0.5%float) = Normal
  /\ snd (Engine.update runTwo 0.5%float) = Normal
  /\ nth_error (Engine.balls (fst (Engine.update runOne 0.5%float))) 0
     = nth_error (Engine.balls (fst (Engine.update runTwo 0.5%float))) 0
  /\ nth_error (Engine.balls (fst (Engine.update runOne 0.5%float))) 0
     = Some (Engine.boundaryChecks (Engine.canvas runOne)
               (fst (Ball.update
                       (@Ball.new FloatNumber 1 100%float 100%float 30%float
                                  0%float 20%float 9.75%float)
                       0.5%float))).
Proof.
  apply (update_noninterference FloatNumber runOne runTwo 0.5%float 0
           (@Ball.new FloatNumber 1 100%float 100%float 30%float 0%float
                      20%float 9.75%float));
    reflexivity.
Defined.

(** ** PhysicsSystem: detection *)

(** On binary64 the distance and the squared distance do not depend on the
    order of the two points, and the distance is not below zero. *)
Lemma float_distance_symmetric (p q : @Vector2D.t FloatNumber) :
  Vector2D.distance p q = Vector2D.distance q p
  /\ Vector2D.distanceSquared p q = Vector2D.distanceSquared q p
  /\ (Vector2D.distance p q <? of_Z 0)%js = false.
Proof.
  unfold Vector2D.distance, Vector2D.distanceSquared; cbv zeta.
  change (@sub FloatNumber) with PrimFloat.sub.
  change (@mul FloatNumber) with PrimFloat.mul.
  rewrite (float_sub_swap_sqr (Vector2D.x p) (Vector2D.x q)).
  rewrite (float_sub_swap_sqr (Vector2D.y p) (Vector2D.y q)).
  split; [reflexivity|]. split; [reflexivity|].
  apply float_sqrt_not_negative.
Qed.

Lemma float_areColliding_symmetric (ballA ballB : @Ball.t FloatNumber) :
  PhysicsSystem.areColliding ballA ballB = PhysicsSystem.areColliding ballB ballA.
Proof.
  unfold PhysicsSystem.areColliding; cbv zeta.
  destruct (float_distance_symmetric (Ball.position ballA) (Ball.position ballB))
    as [-> _].
  change (@add FloatNumber) with PrimFloat.add.
  now rewrite (float_add_comm (Ball.size ballA) (Ball.size ballB)).
Qed.

(** C3, amended.  Both detectors ([PhysicsSystem.areColliding] and
    [Ball.isCollidingWith]) answer [d < r1 + r2] for the distance [d] and the
    sum [r1 + r2] as they are computed: [d] is the square root of
    [dx * dx + dy * dy], and each operation is rounded (in every model of
    numbers).  On binary64 the comparison is strict on these computed numbers:
    when the computed distance [===] the computed sum the answer is false; the
    answer does not depend on the order of the two balls; and when the
    computed distance or the computed sum is NaN the answer is false. *)
Theorem areColliding_strict_as_computed :
  (forall (N : Number) (ballA ballB : Ball.t),
      PhysicsSystem.areColliding ballA ballB
      = (centreDistance ballA ballB <? reach ballA ballB)%js
      /\ Ball.isCollidingWith ballA ballB
         = (centreDistance ballA ballB <? reach ballA ballB)%js)
  /\ (forall ballA ballB : @Ball.t FloatNumber,
         ((centreDistance ballA ballB === reach ballA ballB)%js = true ->
          PhysicsSystem.areColliding ballA ballB = false
          /\ Ball.isCollidingWith ballA ballB = false)
         /\ PhysicsSystem.areColliding ballA ballB
            = PhysicsSystem.areColliding ballB ballA
         /\ Ball.isCollidingWith ballA ballB
            = Ball.isCollidingWith ballB ballA
         /\ ((centreDistance ballA ballB === centreDistance ballA ballB)%js = false
             \/ (reach ballA ballB === reach ballA ballB)%js = false ->
             PhysicsSystem.areColliding ballA ballB = false
             /\ Ball.isCollidingWith ballA ballB = false)).
Proof.
  split.
  - intros N ballA ballB. split; reflexivity.
  - intros ballA ballB.
    assert (Hsame : Ball.isCollidingWith ballA ballB
                    = PhysicsSystem.areColliding ballA ballB) by reflexivity.
    assert (Hsame' : Ball.isCollidingWith ballB ballA
                     = PhysicsSystem.areColliding ballB ballA) by reflexivity.
    split; [|split; [|split]].
    + intros Heq. rewrite Hsame.
      assert (Hc : PhysicsSystem.areColliding ballA ballB = false)
        by exact (float_eqb_not_ltb _ _ Heq).
      now rewrite Hc.
    + apply float_areColliding_symmetric.
    + rewrite Hsame, Hsame'. apply float_areColliding_symmetric.
    + intros Hnan. rewrite Hsame.
      assert (Hc : PhysicsSystem.areColliding ballA ballB = false)
        by exact (float_nan_not_ltb _ _ Hnan).
      now rewrite Hc.
Qed.

(** The theorem on two balls of radius 20 whose centres are 40 apart. *)
Lemma areColliding_strict_as_computed_witness :
  PhysicsSystem.areColliding
    (disc 1 90%float 100%float 20%float) (disc 2 130%float 100%float 20%float)
  = false
  /\ Ball.isCollidingWith
       (disc 1 90%float 100%float 20%float) (disc 2 130%float 100%float 20%float)
     = false.
Proof.
  destruct areColliding_strict_as_computed as (_ & Hfloat).
  destruct (Hfloat (disc 1 90%float 100%float 20%float)
                   (disc 2 130%float 100%float 20%float)) as (Htouch & _).
  apply Htouch. reflexivity.
Defined.

(** C3, as stated, fails on binary64, in both directions.  [grazingLeft] and
    [grazingRight] stand for centres that are more than [r1 + r2] apart and
    are reported as colliding; [nearLeft] and [nearRight] stand for centres
    that are less than [r1 + r2] apart and are not reported; [kissingLeft] and
    [kissingRight], with whole coordinates and radii, touch exactly and are
    reported as colliding. *)
Theorem exact_strictness_fails_on_binary64 :
  (overlapExactly grazingLeft grazingRight = Some false
   /\ PhysicsSystem.areColliding grazingLeft grazingRight = true
   /\ Ball.isCollidingWith grazingLeft grazingRight = true)
  /\ (overlapExactly nearLeft nearRight = Some true
      /\ PhysicsSystem.areColliding nearLeft nearRight = false
      /\ Ball.isCollidingWith nearLeft nearRight = false)
  /\ (touchExactly kissingLeft kissingRight = Some true
      /\ overlapExactly kissingLeft kissingRight = Some false
      /\ PhysicsSystem.areColliding kissingLeft kissingRight = true
      /\ Ball.isCollidingWith kissingLeft kissingRight = true).
Proof. repeat split; vm_compute; reflexivity. Qed.

(** The balls of the end-to-end scenario, on binary64: touching at distance 40
    they are not colliding, and at distance 30 they are. *)
Example touching_not_colliding :
  PhysicsSystem.areColliding
    (@Ball.new FloatNumber 1 90%float 100%float 50%float 0%float 20%float 0%float)
    (@Ball.new FloatNumber 2 130%float 100%float (-50)%float 0%float 20%float 0%float)
  = false
  /\ PhysicsSystem.areColliding
       (@Ball.new FloatNumber 1 95%float 100%float 50%float 0%float 20%float 0%float)
       (@Ball.new FloatNumber 2 125%float 100%float (-50)%float 0%float 20%float 0%float)
     = true.
Proof. split; reflexivity. Qed.

(** ** PhysicsSystem: resolution *)

Lemma contactNormal_returns `{Number} (ballA ballB : Ball.t) :
  snd (contactNormal ballA ballB) = Normal.
Proof.
  unfold contactNormal; cbv zeta.
  destruct (_ === _)%js; [reflexivity|apply normalize_returns].
Qed.

Lemma applyImpulse_position `{Number} combine impulse (ball : Ball.t) :
  Ball.position (fst (PhysicsSystem.applyImpulse combine impulse ball))
  = Ball.position ball.
Proof.
  unfold PhysicsSystem.applyImpulse, withArg.
  destruct (negb (Ball.isFrozen ball)); [|reflexivity].
  destruct (Vector2D.divide _ _) as [v [|e]]; reflexivity.
Qed.

Lemma onA_positions `{Number} combine impulse (pair : Ball.t * Ball.t) :
  positionsOf (fst (PhysicsSystem.onA (PhysicsSystem.applyImpulse combine impulse) pair))
  = positionsOf pair.
Proof.
  unfold positionsOf, PhysicsSystem.onA; simpl.
  now rewrite applyImpulse_position.
Qed.

Lemma onB_positions `{Number} combine impulse (pair : Ball.t * Ball.t) :
  positionsOf (fst (PhysicsSystem.onB (PhysicsSystem.applyImpulse combine impulse) pair))
  = positionsOf pair.
Proof.
  unfold positionsOf, PhysicsSystem.onB; simpl.
  now rewrite applyImpulse_position.
Qed.

Lemma andThen_positions `{Number} (r : (Ball.t * Ball.t) * completion) k P :
  positionsOf (fst r) = P ->
  (forall s, positionsOf s = P -> positionsOf (fst (k s)) = P) ->
  positionsOf (fst (r ;; k)) = P.
Proof. destruct r as [s [|e]]; simpl; auto. Qed.

(** The velocity part of [resolveCollision] moves no ball. *)
Lemma impulses_positions `{Number} (pair : Ball.t * Ball.t) i1 i2 :
  positionsOf
    (fst (PhysicsSystem.onA (PhysicsSystem.applyImpulse Vector2D.subtract i1) pair ;;
          PhysicsSystem.onB (PhysicsSystem.applyImpulse Vector2D.add i1) ;;
          fun pair =>
            PhysicsSystem.onA (PhysicsSystem.applyImpulse Vector2D.subtract i2) pair ;;
            PhysicsSystem.onB (PhysicsSystem.applyImpulse Vector2D.add i2)))
  = positionsOf pair.
Proof.
  apply andThen_positions; [apply andThen_positions|].
  - apply onA_positions.
  - intros s <-. apply onB_positions.
  - intros s <-. apply andThen_positions; [apply onA_positions|].
    intros s' <-. apply onB_positions.
Qed.

(** Where [resolveCollision] leaves the two centres, in every model of
    numbers. *)
Lemma resolveCollision_positions `{Number} (ballA ballB : Ball.t) (dt : num) :
  let normal := fst (contactNormal ballA ballB) in
  let depth := penetration ballA ballB in
  let totalMass := (Ball.mass ballA + Ball.mass ballB)%js in
  positionsOf (fst (PhysicsSystem.resolveCollision ballA ballB dt))
  = (if Ball.isFrozen ballA then Ball.position ballA
     else Vector2D.subtract (Ball.position ballA)
            (Vector2D.multiply normal (depth * (Ball.mass ballB / totalMass))%js),
     if Ball.isFrozen ballB then Ball.position ballB
     else Vector2D.add (Ball.position ballB)
            (Vector2D.multiply normal (depth * (Ball.mass ballA / totalMass))%js)).
Proof.
  cbv zeta.
  pose proof (contactNormal_returns ballA ballB) as Hn.
  unfold PhysicsSystem.resolveCollision, penetration; cbv zeta.
  change (if (Vector2D.magnitude _ === of_Z 0)%js then _ else _)
    with (contactNormal ballA ballB).
  destruct (contactNormal ballA ballB) as [[nx ny] c]; simpl in Hn; subst c.
  cbv beta iota.
  match goal with
  | |- positionsOf (fst (if ?both then _ else _)) = _ => destruct both
  end.
  - destruct (Ball.isFrozen ballA), (Ball.isFrozen ballB); reflexivity.
  - destruct (_ <? _)%js.
    + destruct (Ball.isFrozen ballA), (Ball.isFrozen ballB); reflexivity.
    + rewrite impulses_positions.
      destruct (Ball.isFrozen ballA), (Ball.isFrozen ballB); reflexivity.
Qed.

(** C4, on the frozen ball at (100, 100) and the free ball at (130, 100), both
    of radius 20 and of the same mass, which overlap by 10.  [resolveCollision]
    returns and moves the free ball from 130 to 135, by its mass share of the
    overlap, not by the whole of it to 140 as specified: the two balls overlap
    as before and are still colliding.  With the first ball not frozen the
    same call moves the two to 95 and 135, where they touch and are no longer
    colliding. *)
Theorem frozen_partner_leaves_overlap :
  let after := PhysicsSystem.resolveCollision frozenObstacle freeNeighbour 0%float in
  let both :=
    PhysicsSystem.resolveCollision
      (Ball.set_isFrozen frozenObstacle false) freeNeighbour 0%float in
  Ball.isFrozen frozenObstacle = true
  /\ Ball.isFrozen freeNeighbour = false
  /\ @penetration FloatNumber frozenObstacle freeNeighbour = 10%float
  /\ snd after = Normal
  /\ positionsOf (fst after)
     = (@Vector2D.new FloatNumber 100%float 100%float,
        @Vector2D.new FloatNumber 135%float 100%float)
  /\ PhysicsSystem.areColliding (fst (fst after)) (snd (fst after)) = true
  /\ ~ correctionAsSpecified frozenObstacle freeNeighbour 0%float
  /\ positionsOf (fst both)
     = (@Vector2D.new FloatNumber 95%float 100%float,
        @Vector2D.new FloatNumber 135%float 100%float)
  /\ PhysicsSystem.areColliding (fst (fst both)) (snd (fst both)) = false.
Proof.
  cbv zeta. repeat split; try (vm_compute; reflexivity).
  unfold correctionAsSpecified. intros Hc.
  apply (f_equal (fun p : @Vector2D.t FloatNumber * @Vector2D.t FloatNumber =>
                    @eqb FloatNumber (Vector2D.x (snd p)) 135%float)) in Hc.
  vm_compute in Hc. discriminate Hc.
Qed.



Ltac enter_resolution ballA ballB n :=
  unfold PhysicsSystem.resolveCollision; cbv zeta;
  change (if (Vector2D.magnitude _ === of_Z 0)%js then _ else _)
    with (contactNormal ballA ballB);
  let Hn := fresh "Hn" in
  pose proof (contactNormal_returns ballA ballB) as Hn;
  destruct (contactNormal ballA ballB) as [n [|?]];
  [clear Hn | discriminate Hn];
  cbv beta iota.




(** The end-to-end scenario on binary64: resolution puts the centres back at
    distance 40, five units each, and turns the velocities 50 and -50 into -40
    and 40. *)
Example end_to_end_resolution :
  PhysicsSystem.resolveCollision
    (@Ball.new FloatNumber 1 95%float 100%float 50%float 0%float 20%float 0%float)
    (@Ball.new FloatNumber 2 125%float 100%float (-50)%float 0%float 20%float 0%float)
    0.5%float
  = ((Ball.set_velocity
        (@Ball.new FloatNumber 1 90%float 100%float 0%float 0%float 20%float 0%float)
        (@Vector2D.new FloatNumber (-40)%float 0%float),
      Ball.set_velocity
        (@Ball.new FloatNumber 2 130%float 100%float 0%float 0%float 20%float 0%float)
        (@Vector2D.new FloatNumber 40%float 0%float)),
     Normal).
Proof. vm_compute. reflexivity. Qed.

(** ** PhysicsSystem: pair generation *)

(** Every pair that [generateCollisionPairs] lists is a pair of colliding balls
    neither of which is frozen. *)
Lemma generated_pairs_unfrozen `{Number} (balls : list Ball.t) (i j : nat) :
  In (i, j) (PhysicsSystem.generateCollisionPairs balls) ->
  exists ballA ballB,
    nth_error balls i = Some ballA /\ nth_error balls j = Some ballB
    /\ Ball.isFrozen ballA = false /\ Ball.isFrozen ballB = false
    /\ PhysicsSystem.areColliding ballA ballB = true.
Proof.
  unfold PhysicsSystem.generateCollisionPairs.
  rewrite in_flat_map. intros (i' & _ & Hin).
  destruct (nth_error balls i') as [ballA|] eqn:HA; [|contradiction].
  destruct (Ball.isFrozen ballA) eqn:HfA; [contradiction|].
  unfold PhysicsSystem.pairsFrom in Hin.
  rewrite in_flat_map in Hin. destruct Hin as (j' & _ & Hin).
  destruct (nth_error balls j') as [ballB|] eqn:HB; [|contradiction].
  destruct (Ball.isFrozen ballB) eqn:HfB; [contradiction|].
  destruct (PhysicsSystem.areColliding ballA ballB) eqn:Hc; [|contradiction].
  destruct Hin as [Heq|[]]. injection Heq as <- <-.
  exists ballA, ballB. auto.
Qed.

(** C2, on the frozen ball at (100, 100) and the free ball at (130, 100), both
    of radius 20: they overlap and only one of them is frozen, yet
    [generateCollisionPairs] lists no pair for them, in either order, and
    [update] returns the two balls as they were, still overlapping. *)
Theorem frozen_partner_is_skipped :
  PhysicsSystem.areColliding frozenObstacle freeNeighbour = true
  /\ Ball.isFrozen frozenObstacle = true
  /\ Ball.isFrozen freeNeighbour = false
  /\ PhysicsSystem.generateCollisionPairs [frozenObstacle; freeNeighbour] = []
  /\ PhysicsSystem.generateCollisionPairs [freeNeighbour; frozenObstacle] = []
  /\ PhysicsSystem.update [frozenObstacle; freeNeighbour] 0.5%float
     = ([frozenObstacle; freeNeighbour], Normal)
  /\ PhysicsSystem.generateCollisionPairs
       [Ball.set_isFrozen frozenObstacle false; freeNeighbour] = [(0, 1)]%nat.
Proof. repeat split; vm_compute; reflexivity. Qed.

(** ** Quadtree *)

(** What [insert] does before it reaches the children. *)
Lemma insert_outside `{Number} (fuel : nat) (this : Quadtree.t) (object : Quadtree.Object) :
  Quadtree.intersects this object = false ->
  Quadtree.insert (S fuel) this object = Some (this, Quadtree.Returned false).
Proof. intros Hi. simpl. now rewrite Hi. Qed.

Lemma insert_leaf_with_room `{Number} (fuel : nat) (this : Quadtree.t)
  (object : Quadtree.Object) :
  Quadtree.intersects this object = true ->
  Quadtree.divided this = false ->
  (Z.of_nat (List.length (Quadtree.objects this)) < Quadtree.capacity this)%Z ->
  Quadtree.insert (S fuel) this object
  = Some (Quadtree.set_objects this (Quadtree.objects this ++ [object]),
          Quadtree.Returned true).
Proof.
  intros Hi Hd Hc. simpl. rewrite Hi, Hd. simpl.
  apply Z.ltb_lt in Hc. now rewrite Hc.
Qed.

Lemma insert_at_maxDepth `{Number} (fuel : nat) (this : Quadtree.t)
  (object : Quadtree.Object) :
  Quadtree.intersects this object = true ->
  (Quadtree.maxDepth this <= Quadtree.depth this)%Z ->
  Quadtree.insert (S fuel) this object
  = Some (Quadtree.set_objects this (Quadtree.objects this ++ [object]),
          Quadtree.Returned true).
Proof.
  intros Hi Hd. simpl. rewrite Hi. simpl.
  apply Z.geb_le in Hd. rewrite Hd.
  now destruct (negb (Quadtree.divided this) && _).
Qed.

(** More fuel does not change what [insert] gives. *)
Section FuelMonotone.
Context `{Number}.
Variables insert1 insert2 : Quadtree.t -> Quadtree.Object -> option (Quadtree.t * Quadtree.returned).
Hypothesis insert_le :
  forall this object r, insert1 this object = Some r -> insert2 this object = Some r.

Lemma insertInto_le (children : list Quadtree.t) (object : Quadtree.Object) children' :
  Quadtree.insertInto insert1 children object = Some children' ->
  Quadtree.insertInto insert2 children object = Some children'.
Proof.
  revert children'; induction children as [|child rest IH]; intros children' Hi;
    [exact Hi|].
  simpl in *.
  destruct (Quadtree.contains child object).
  - destruct (insert1 child object) as [r|] eqn:Hr; [|discriminate].
    rewrite (insert_le _ _ _ Hr). simpl in *.
    destruct (Quadtree.insertInto insert1 rest object) as [rest'|]; [|discriminate].
    now rewrite (IH _ eq_refl).
  - destruct (Quadtree.insertInto insert1 rest object) as [rest'|]; [|discriminate].
    now rewrite (IH _ eq_refl).
Qed.

Lemma insertToChildren_le (this : Quadtree.t) (object : Quadtree.Object) this' :
  Quadtree.insertToChildren insert1 this object = Some this' ->
  Quadtree.insertToChildren insert2 this object = Some this'.
Proof.
  unfold Quadtree.insertToChildren.
  destruct (Quadtree.insertInto insert1 _ _) as [children'|] eqn:Hc; [|discriminate].
  now rewrite (insertInto_le _ _ _ Hc).
Qed.

Lemma redistribute_le (objects : list Quadtree.Object) (this this' : Quadtree.t) :
  Quadtree.redistribute insert1 this objects = Some this' ->
  Quadtree.redistribute insert2 this objects = Some this'.
Proof.
  revert this; induction objects as [|object rest IH]; intros this Hr; [exact Hr|].
  simpl in *.
  destruct (Quadtree.insertToChildren insert1 this object) as [next|] eqn:Hn;
    [|discriminate].
  rewrite (insertToChildren_le _ _ _ Hn). now apply IH.
Qed.

Lemma subdivide_le (this this' : Quadtree.t) :
  Quadtree.subdivide insert1 this = Some this' ->
  Quadtree.subdivide insert2 this = Some this'.
Proof.
  unfold Quadtree.subdivide; cbv zeta.
  destruct (Quadtree.redistribute insert1 _ _) as [next|] eqn:Hn; [|discriminate].
  now rewrite (redistribute_le _ _ _ Hn).
Qed.

End FuelMonotone.

Lemma insert_fuel_S `{Number} (fuel : nat) :
  forall this object r,
    Quadtree.insert fuel this object = Some r ->
    Quadtree.insert (S fuel) this object = Some r.
Proof.
  induction fuel as [|fuel IH]; intros this object r Hi; [discriminate|].
  simpl in Hi. change (Quadtree.insert (S (S fuel)) this object)
    with (if negb (Quadtree.intersects this object)
          then Some (this, Quadtree.Returned false)
          else if negb (Quadtree.divided this)
                  && (Z.of_nat (List.length (Quadtree.objects this))
                      <? Quadtree.capacity this)%Z
          then Some (Quadtree.set_objects this (Quadtree.objects this ++ [object]),
                     Quadtree.Returned true)
          else if (Quadtree.depth this >=? Quadtree.maxDepth this)%Z
          then Some (Quadtree.set_objects this (Quadtree.objects this ++ [object]),
                     Quadtree.Returned true)
          else
            match (if negb (Quadtree.divided this)
                   then Quadtree.subdivide (Quadtree.insert (S fuel)) this
                   else Some this) with
            | None => None
            | Some this =>
                option_map (fun this => (this, Quadtree.Undefined))
                  (Quadtree.insertToChildren (Quadtree.insert (S fuel)) this object)
            end).
  destruct (negb (Quadtree.intersects this object)); [exact Hi|].
  destruct (negb (Quadtree.divided this) && _); [exact Hi|].
  destruct (Quadtree.depth this >=? Quadtree.maxDepth this)%Z; [exact Hi|].
  destruct (negb (Quadtree.divided this)).
  - destruct (Quadtree.subdivide (Quadtree.insert fuel) this) as [next|] eqn:Hs;
      [|discriminate].
    rewrite (subdivide_le _ _ IH _ _ Hs).
    destruct (Quadtree.insertToChildren (Quadtree.insert fuel) next object)
      as [last|] eqn:Hl; [|discriminate].
    now rewrite (insertToChildren_le _ _ IH _ _ _ Hl).
  - destruct (Quadtree.insertToChildren (Quadtree.insert fuel) this object)
      as [last|] eqn:Hl; [|discriminate].
    now rewrite (insertToChildren_le _ _ IH _ _ _ Hl).
Qed.

Lemma insert_fuel_le `{Number} (fuel fuel' : nat) this object r :
  (fuel <= fuel')%nat ->
  Quadtree.insert fuel this object = Some r ->
  Quadtree.insert fuel' this object = Some r.
Proof.
  induction 1 as [|fuel' _ IH]; [auto|].
  intros Hi. now apply insert_fuel_S, IH.
Qed.

Lemma wellFormed_divided `{Number} b c m d objs children :
  wellFormed (Quadtree.Node b c m d objs true children)
  <-> Forall (childOf m d) children.
Proof.
  simpl. induction children as [|child rest IH]; simpl.
  - split; auto.
  - rewrite Forall_cons_iff, <- IH. reflexivity.
Qed.

Section Total.
Context `{Number}.
Variable insert' : Quadtree.t -> Quadtree.Object -> option (Quadtree.t * Quadtree.returned).
Variable P : Quadtree.t -> Prop.
Hypothesis insert_total :
  forall child object, P child ->
    exists child' r, insert' child object = Some (child', r) /\ P child'.

Lemma insertInto_total (children : list Quadtree.t) (object : Quadtree.Object) :
  Forall P children ->
  exists children',
    Quadtree.insertInto insert' children object = Some children'
    /\ Forall P children'.
Proof.
  induction 1 as [|child rest Hc _ (rest' & Hr & Hrest)]; simpl.
  - exists []. auto.
  - destruct (Quadtree.contains child object).
    + destruct (insert_total child object Hc) as (child' & r & -> & Hc').
      simpl. rewrite Hr. simpl. exists (child' :: rest'). auto.
    + rewrite Hr. simpl. exists (child :: rest'). auto.
Qed.

Lemma redistribute_total (objects : list Quadtree.Object) :
  forall this, Forall P (Quadtree.children this) ->
  exists children',
    Quadtree.redistribute insert' this objects
    = Some (Quadtree.set_children this children')
    /\ Forall P children'.
Proof.
  induction objects as [|object rest IH]; intros this Hc; simpl.
  - exists (Quadtree.children this). split; [|exact Hc].
    now destruct this.
  - unfold Quadtree.insertToChildren.
    destruct (insertInto_total (Quadtree.children this) object Hc)
      as (children' & -> & Hc').
    simpl.
    destruct (IH (Quadtree.set_children this children')) as (last & -> & Hl).
    + now destruct this.
    + exists last. split; [|exact Hl]. now destruct this.
Qed.

End Total.

Lemma insert_total_wellFormed `{Number} (fuel : nat) :
  forall this object,
    wellFormed this ->
    (Z.to_nat (Quadtree.maxDepth this - Quadtree.depth this) < fuel)%nat ->
    exists this' r,
      Quadtree.insert fuel this object = Some (this', r)
      /\ wellFormed this'
      /\ Quadtree.maxDepth this' = Quadtree.maxDepth this
      /\ Quadtree.depth this' = Quadtree.depth this.
Proof.
  induction fuel as [|fuel IH]; intros this object Hwf Hfuel; [lia|].
  destruct this as [b c m d objs dv children]. simpl in Hfuel.
  cbn [Quadtree.insert].
  destruct (negb (Quadtree.intersects _ object)); [eauto 10|].
  cbn [Quadtree.divided Quadtree.objects Quadtree.capacity Quadtree.depth
       Quadtree.maxDepth].
  destruct (negb dv && _).
  { eexists _, _. split; [reflexivity|]. now destruct dv. }
  destruct (d >=? m)%Z eqn:Hdm.
  { eexists _, _. split; [reflexivity|]. now destruct dv. }
  rewrite Z.geb_leb in Hdm. apply Z.leb_gt in Hdm.
  assert (Hchild : forall child object, childOf m d child ->
            exists child' r, Quadtree.insert fuel child object = Some (child', r)
                             /\ childOf m d child').
  { intros child object' (Hw & Hm & Hd).
    destruct (IH child object' Hw) as (child' & r & Hi & Hw' & Hm' & Hd').
    - rewrite Hm, Hd. lia.
    - exists child', r. split; [exact Hi|]. split; [exact Hw'|]. split; congruence. }
  destruct dv; cbn [negb].
  - apply wellFormed_divided in Hwf.
    unfold Quadtree.insertToChildren. cbn [Quadtree.children].
    destruct (insertInto_total _ _ Hchild children object Hwf) as (ch' & -> & Hch').
    simpl. eexists _, _. split; [reflexivity|].
    split; [|split; reflexivity]. now apply wellFormed_divided.
  - simpl in Hwf. subst children.
    unfold Quadtree.subdivide; cbv zeta.
    cbn [Quadtree.children Quadtree.objects skipn app].
    match goal with
    | |- context [Quadtree.redistribute _ ?t ?o] =>
        destruct (redistribute_total _ _ Hchild o t) as (ch1 & -> & Hch1)
    end.
    { simpl. repeat constructor. }
    cbn [option_map].
    unfold Quadtree.insertToChildren.
    cbn [Quadtree.children Quadtree.set_objects Quadtree.set_children
         Quadtree.set_divided Quadtree.bounds Quadtree.capacity Quadtree.maxDepth
         Quadtree.depth Quadtree.objects Quadtree.divided].
    destruct (insertInto_total _ _ Hchild ch1 object Hch1) as (ch2 & -> & Hch2).
    simpl. eexists _, _. split; [reflexivity|].
    split; [|split; reflexivity]. now apply wellFormed_divided.
Qed.

Lemma new_wellFormed `{Number} bounds capacity maxDepth depth :
  wellFormed (Quadtree.new bounds capacity maxDepth depth).
Proof. reflexivity. Qed.

(** [insert] returns on every well-formed tree once the fuel exceeds the levels
    left below the node, and leaves a well-formed tree. *)
Lemma insert_returns `{Number} (this : Quadtree.t) (object : Quadtree.Object) (fuel : nat) :
  wellFormed this ->
  (Z.to_nat (Quadtree.maxDepth this - Quadtree.depth this) < fuel)%nat ->
  exists this' r,
    Quadtree.insert fuel this object = Some (this', r) /\ wellFormed this'.
Proof.
  intros Hwf Hfuel.
  destruct (insert_total_wellFormed fuel this object Hwf Hfuel)
    as (this' & r & Hi & Hwf' & _).
  eauto.
Qed.


(** C1, on the arena: [straddler] is inserted (the root takes it and answers
    true); inserting [cornerBall] then subdivides the root, which hands
    [straddler] to the children that contain it whole, and none does.  The tree
    that results holds [cornerBall] only, so the query with [probe], whose
    bounding box holds the centre of [straddler], does not return
    [straddler]. *)
Theorem quadtree_drops_straddling_body :
  (forall fuel,
      Quadtree.insert (S fuel) arena straddler
      = Some (Quadtree.set_objects arena [straddler], Quadtree.Returned true))
  /\ (forall fuel,
         Quadtree.insert (S (S fuel)) (Quadtree.set_objects arena [straddler])
                         cornerBall
         = Some (dividedArena, Quadtree.Undefined))
  /\ Quadtree.intersects arena straddler = true
  /\ Quadtree.contains arena straddler = true
  /\ centreInBox (Quadtree.ball straddler) (Quadtree.ball probe) = true
  /\ PhysicsSystem.areColliding (Quadtree.ball straddler) (Quadtree.ball probe)
     = true
  /\ Quadtree.query dividedArena probe [] = [cornerBall]
  /\ holds (Quadtree.query dividedArena probe []) straddler = false.
Proof. repeat split; intros; vm_compute; reflexivity. Qed.

(** C6, on the same arena.  Inserting [cornerBall] into the root that is full
    with [farBall] puts it into the north-west child, and [insert] answers
    [undefined], not true.
    Inserting [straddler] into the divided arena, where its bounding box
    intersects all four children, puts it into none of them. *)
Theorem insert_into_children_contract_fails :
  (forall fuel,
      Quadtree.insert (S (S fuel)) (Quadtree.set_objects arena [farBall]) cornerBall
      = Some (Quadtree.Node
                (@Quadtree.bounds_of FloatNumber 0%float 0%float 100%float 100%float)
                1 5 0 [] true
                [ quadrant 50%float 0%float [];
                  quadrant 0%float 0%float [cornerBall];
                  quadrant 0%float 50%float [];
                  quadrant 50%float 50%float [farBall] ],
              Quadtree.Undefined))
  /\ map (fun child => Quadtree.intersects child straddler)
         (Quadtree.children dividedArena) = [true; true; true; true]
  /\ map (fun child => Quadtree.contains child straddler)
         (Quadtree.children dividedArena) = [false; false; false; false]
  /\ (forall fuel,
         Quadtree.insert (S (S fuel)) dividedArena straddler
         = Some (dividedArena, Quadtree.Undefined)).
Proof. repeat split; intros; vm_compute; reflexivity. Qed.


(** * Further properties *)

(** ** PhysicsSystem.generateCollisionPairs *)

Lemma NoDup_flat_map {A B : Type} (f : A -> list B) (l : list A) :
  NoDup l ->
  (forall a, In a l -> NoDup (f a)) ->
  (forall a a' b, In a l -> In a' l -> In b (f a) -> In b (f a') -> a = a') ->
  NoDup (flat_map f l).
Proof.
  induction 1 as [|a l Hnotin Hnd IH]; intros Hf Hdis; simpl; [constructor|].
  apply NoDup_app.
  - apply Hf. now left.
  - apply IH.
    + intros a' Ha'. apply Hf. now right.
    + intros a1 a2 b H1 H2. apply Hdis; now right.
  - intros b Hb Hb'. apply in_flat_map in Hb'. destruct Hb' as (a' & Ha' & Hb').
    assert (a = a') by (apply (Hdis a a' b); auto; [now left | now right]).
    subst a'. contradiction.
Qed.

Lemma pairsFrom_In `{Number} (balls : list Ball.t) (i : nat) (ballA : Ball.t) p :
  In p (PhysicsSystem.pairsFrom balls i ballA) <->
  exists j ballB,
    p = (i, j) /\ (i < j)%nat /\ nth_error balls j = Some ballB
    /\ Ball.isFrozen ballB = false
    /\ PhysicsSystem.areColliding ballA ballB = true.
Proof.
  unfold PhysicsSystem.pairsFrom. rewrite in_flat_map. split.
  - intros (j & Hj & Hin). apply in_seq in Hj.
    destruct (nth_error balls j) as [ballB|] eqn:HB; [|contradiction].
    destruct (Ball.isFrozen ballB) eqn:HfB; [contradiction|].
    destruct (PhysicsSystem.areColliding ballA ballB) eqn:Hc; [|contradiction].
    destruct Hin as [<-|[]]. exists j, ballB. repeat split; auto. lia.
  - intros (j & ballB & -> & Hij & HB & HfB & Hc).
    exists j. split.
    + apply in_seq. assert (j < List.length balls)%nat
        by (apply nth_error_Some; congruence). lia.
    + rewrite HB, HfB, Hc. now left.
Qed.

Lemma pairsFrom_NoDup `{Number} (balls : list Ball.t) (i : nat) (ballA : Ball.t) :
  NoDup (PhysicsSystem.pairsFrom balls i ballA).
Proof.
  unfold PhysicsSystem.pairsFrom. apply NoDup_flat_map.
  - apply seq_NoDup.
  - intros j _. destruct (nth_error balls j) as [ballB|]; [|constructor].
    destruct (Ball.isFrozen ballB); [constructor|].
    destruct (PhysicsSystem.areColliding ballA ballB); repeat constructor.
    intros [].
  - intros j j' p _ _ Hj Hj'.
    destruct (nth_error balls j) as [ballB|]; [|contradiction].
    destruct (Ball.isFrozen ballB); [contradiction|].
    destruct (PhysicsSystem.areColliding ballA ballB); [|contradiction].
    destruct (nth_error balls j') as [ballB'|]; [|contradiction].
    destruct (Ball.isFrozen ballB'); [contradiction|].
    destruct (PhysicsSystem.areColliding ballA ballB'); [|contradiction].
    destruct Hj as [<-|[]], Hj' as [Heq|[]]. congruence.
Qed.

Lemma generated_pairs_NoDup `{Number} (balls : list Ball.t) :
  NoDup (PhysicsSystem.generateCollisionPairs balls).
Proof.
  unfold PhysicsSystem.generateCollisionPairs.
  apply NoDup_flat_map.
  - apply seq_NoDup.
  - intros i _. destruct (nth_error balls i) as [ballA|]; [|constructor].
    destruct (Ball.isFrozen ballA); [constructor|apply pairsFrom_NoDup].
  - intros i i' p _ _ Hi Hi'.
    destruct (nth_error balls i) as [ballA|]; [|contradiction].
    destruct (Ball.isFrozen ballA); [contradiction|].
    destruct (nth_error balls i') as [ballA'|]; [|contradiction].
    destruct (Ball.isFrozen ballA'); [contradiction|].
    apply pairsFrom_In in Hi, Hi'.
    destruct Hi as (j & ? & -> & _), Hi' as (j' & ? & Heq & _). congruence.
Qed.

Lemma generated_pairs_iff `{Number} (balls : list Ball.t) (i j : nat) :
  In (i, j) (PhysicsSystem.generateCollisionPairs balls) <->
  (i < j)%nat
  /\ exists ballA ballB,
      nth_error balls i = Some ballA /\ nth_error balls j = Some ballB
      /\ Ball.isFrozen ballA = false /\ Ball.isFrozen ballB = false
      /\ PhysicsSystem.areColliding ballA ballB = true.
Proof.
  unfold PhysicsSystem.generateCollisionPairs. rewrite in_flat_map. split.
  - intros (i' & _ & Hin).
    destruct (nth_error balls i') as [ballA|] eqn:HA; [|contradiction].
    destruct (Ball.isFrozen ballA) eqn:HfA; [contradiction|].
    apply pairsFrom_In in Hin.
    destruct Hin as (j' & ballB & Heq & Hlt & HB & HfB & Hc).
    injection Heq as -> ->. split; [exact Hlt|]. exists ballA, ballB. auto.
  - intros (Hlt & ballA & ballB & HA & HB & HfA & HfB & Hc).
    exists i. split.
    + apply in_seq. assert (i < List.length balls)%nat
        by (apply nth_error_Some; congruence). lia.
    + rewrite HA, HfA. apply pairsFrom_In. exists j, ballB. auto.
Qed.

(** X1. [generateCollisionPairs] lists the index pair [(i, j)] exactly when
    [i < j], neither of the two balls is frozen and they collide, and it lists
    no pair twice: every unordered pair is considered once. *)
Theorem pairs_listed_once (N : Number) (balls : list Ball.t) :
  NoDup (PhysicsSystem.generateCollisionPairs balls)
  /\ forall i j,
      In (i, j) (PhysicsSystem.generateCollisionPairs balls) <->
      (i < j)%nat
      /\ exists ballA ballB,
          nth_error balls i = Some ballA /\ nth_error balls j = Some ballB
          /\ Ball.isFrozen ballA = false /\ Ball.isFrozen ballB = false
          /\ PhysicsSystem.areColliding ballA ballB = true.
Proof.
  split; [apply generated_pairs_NoDup|].
  intros i j. apply generated_pairs_iff.
Qed.

Lemma resolveCollisions_nil `{Number} (balls : list Ball.t) (dt : num) :
  PhysicsSystem.resolveCollisions [] balls dt = (balls, Normal).
Proof. reflexivity. Qed.

(** X2. When no two balls that are both not frozen collide, [update] returns
    and leaves every ball as it was. *)
Theorem update_without_collisions (N : Number) (balls : list Ball.t) (dt : num) :
  (forall i j ballA ballB,
      (i < j)%nat ->
      nth_error balls i = Some ballA -> nth_error balls j = Some ballB ->
      Ball.isFrozen ballA = false -> Ball.isFrozen ballB = false ->
      PhysicsSystem.areColliding ballA ballB = false) ->
  PhysicsSystem.update balls dt = (balls, Normal).
Proof.
  intros Hfar. unfold PhysicsSystem.update.
  destruct (List.length balls <=? 1)%nat; [reflexivity|].
  destruct (PhysicsSystem.generateCollisionPairs balls) as [|[i j] rest] eqn:Hp;
    [reflexivity|].
  assert (Hin : In (i, j) (PhysicsSystem.generateCollisionPairs balls))
    by (rewrite Hp; now left).
  apply generated_pairs_iff in Hin.
  destruct Hin as (Hlt & ballA & ballB & HA & HB & HfA & HfB & Hc).
  rewrite (Hfar i j ballA ballB Hlt HA HB HfA HfB) in Hc. discriminate.
Qed.

(** The theorem on [farApart]. *)
Lemma update_without_collisions_witness :
  PhysicsSystem.update farApart 0.5%float = (farApart, Normal).
Proof.
  apply (update_without_collisions FloatNumber farApart 0.5%float).
  intros [|[|[|i]]] [|[|[|j]]] ballA ballB Hlt HA HB _ _;
    try lia; simpl in HA, HB; try discriminate;
    try (destruct i; discriminate); try (destruct j; discriminate).
  injection HA as <-. injection HB as <-. reflexivity.
Defined.

(** ** PhysicsSystem.resolveCollision *)

Lemma andThen_invariant {S : Type} (I : S -> Prop) (r : S * completion) k :
  I (fst r) -> (forall s, I s -> I (fst (k s))) -> I (fst (r ;; k)).
Proof. destruct r as [s [|e]]; simpl; auto. Qed.

Lemma applyImpulse_frozen `{Number} combine impulse (ball : Ball.t) :
  Ball.isFrozen ball = true ->
  PhysicsSystem.applyImpulse combine impulse ball = (ball, Normal).
Proof. intros Hf. unfold PhysicsSystem.applyImpulse. now rewrite Hf. Qed.

Lemma applyImpulse_isFrozen `{Number} combine impulse (ball : Ball.t) :
  Ball.isFrozen (fst (PhysicsSystem.applyImpulse combine impulse ball))
  = Ball.isFrozen ball.
Proof.
  unfold PhysicsSystem.applyImpulse, withArg.
  destruct (negb (Ball.isFrozen ball)); [|reflexivity].
  destruct (Vector2D.divide _ _) as [v [|e]]; reflexivity.
Qed.

(** The four impulses leave a frozen ball of the pair as it is. *)
Lemma impulses_keep_frozen `{Number} (pair : Ball.t * Ball.t) i1 i2 :
  let after :=
    fst (PhysicsSystem.onA (PhysicsSystem.applyImpulse Vector2D.subtract i1) pair ;;
         PhysicsSystem.onB (PhysicsSystem.applyImpulse Vector2D.add i1) ;;
         fun pair =>
           PhysicsSystem.onA (PhysicsSystem.applyImpulse Vector2D.subtract i2) pair ;;
           PhysicsSystem.onB (PhysicsSystem.applyImpulse Vector2D.add i2)) in
  (Ball.isFrozen (fst pair) = true -> fst after = fst pair)
  /\ (Ball.isFrozen (snd pair) = true -> snd after = snd pair).
Proof.
  cbv zeta. split; intros Hf.
  - apply (andThen_invariant (fun s => fst s = fst pair));
      [apply (andThen_invariant (fun s => fst s = fst pair))|].
    + unfold PhysicsSystem.onA; simpl. now rewrite applyImpulse_frozen.
    + intros s Hs. unfold PhysicsSystem.onB; simpl. exact Hs.
    + intros s Hs. apply (andThen_invariant (fun s => fst s = fst pair)).
      * unfold PhysicsSystem.onA; simpl. rewrite Hs.
        now rewrite applyImpulse_frozen.
      * intros s' Hs'. unfold PhysicsSystem.onB; simpl. exact Hs'.
  - apply (andThen_invariant (fun s => snd s = snd pair));
      [apply (andThen_invariant (fun s => snd s = snd pair))|].
    + unfold PhysicsSystem.onA; simpl. reflexivity.
    + intros s Hs. unfold PhysicsSystem.onB; simpl. rewrite Hs.
      now rewrite applyImpulse_frozen.
    + intros s Hs. apply (andThen_invariant (fun s => snd s = snd pair)).
      * unfold PhysicsSystem.onA; simpl. exact Hs.
      * intros s' Hs'. unfold PhysicsSystem.onB; simpl. rewrite Hs'.
        now rewrite applyImpulse_frozen.
Qed.

Lemma resolveCollision_frozen `{Number} (ballA ballB : Ball.t) (dt : num) :
  let after := fst (PhysicsSystem.resolveCollision ballA ballB dt) in
  (Ball.isFrozen ballA = true -> fst after = ballA)
  /\ (Ball.isFrozen ballB = true -> snd after = ballB).
Proof.
  cbv zeta. enter_resolution ballA ballB n.
  destruct (Ball.isFrozen ballA) eqn:HfA, (Ball.isFrozen ballB) eqn:HfB;
    cbn [negb andb]; try rewrite HfA; try rewrite HfB; cbn [negb andb];
    try (split; intros; (reflexivity || discriminate)).
  - change (Ball.isFrozen (Ball.set_position ballB _)) with (Ball.isFrozen ballB).
    rewrite HfB; cbn [andb].
    destruct (_ <? _)%js; [split; intros; (reflexivity || discriminate)|].
    split; [intros _|discriminate].
    now apply impulses_keep_frozen.
  - change (Ball.isFrozen (Ball.set_position ballA _)) with (Ball.isFrozen ballA).
    rewrite HfA; cbn [andb].
    destruct (_ <? _)%js; [split; intros; (reflexivity || discriminate)|].
    split; [discriminate|intros _].
    now apply impulses_keep_frozen.
Qed.

(** X3. [resolveCollision] hands a frozen ball back as it was: position,
    velocity and every other field, whatever the other ball is and whether or
    not the call throws. *)
Theorem resolveCollision_keeps_frozen (N : Number) (ballA ballB : Ball.t)
  (dt : num) :
  let after := fst (PhysicsSystem.resolveCollision ballA ballB dt) in
  (Ball.isFrozen ballA = true -> fst after = ballA)
  /\ (Ball.isFrozen ballB = true -> snd after = ballB).
Proof. apply resolveCollision_frozen. Qed.

Lemma applyImpulse_rest `{Number} combine impulse (ball : Ball.t) :
  restOf (fst (PhysicsSystem.applyImpulse combine impulse ball)) = restOf ball.
Proof.
  unfold PhysicsSystem.applyImpulse, withArg.
  destruct (negb (Ball.isFrozen ball)); [|reflexivity].
  destruct (Vector2D.divide _ _) as [v [|e]]; reflexivity.
Qed.

Lemma impulses_rest `{Number} (pair : Ball.t * Ball.t) i1 i2 :
  let after :=
    fst (PhysicsSystem.onA (PhysicsSystem.applyImpulse Vector2D.subtract i1) pair ;;
         PhysicsSystem.onB (PhysicsSystem.applyImpulse Vector2D.add i1) ;;
         fun pair =>
           PhysicsSystem.onA (PhysicsSystem.applyImpulse Vector2D.subtract i2) pair ;;
           PhysicsSystem.onB (PhysicsSystem.applyImpulse Vector2D.add i2)) in
  restOf (fst after) = restOf (fst pair) /\ restOf (snd after) = restOf (snd pair).
Proof.
  cbv zeta.
  set (I := fun s : Ball.t * Ball.t =>
              restOf (fst s) = restOf (fst pair)
              /\ restOf (snd s) = restOf (snd pair)).
  assert (HA : forall i s, I s ->
             I (fst (PhysicsSystem.onA (PhysicsSystem.applyImpulse Vector2D.subtract i) s))).
  { intros i s [H1 H2]. unfold I, PhysicsSystem.onA; simpl.
    now rewrite applyImpulse_rest. }
  assert (HB : forall i s, I s ->
             I (fst (PhysicsSystem.onB (PhysicsSystem.applyImpulse Vector2D.add i) s))).
  { intros i s [H1 H2]. unfold I, PhysicsSystem.onB; simpl.
    now rewrite applyImpulse_rest. }
  apply (andThen_invariant I); [apply (andThen_invariant I)|].
  - apply HA. split; reflexivity.
  - intros s Hs. now apply HB.
  - intros s Hs. apply (andThen_invariant I); [now apply HA|].
    intros s' Hs'. now apply HB.
Qed.

Lemma resolveCollision_rest `{Number} (ballA ballB : Ball.t) (dt : num) :
  let after := fst (PhysicsSystem.resolveCollision ballA ballB dt) in
  restOf (fst after) = restOf ballA /\ restOf (snd after) = restOf ballB.
Proof.
  cbv zeta. enter_resolution ballA ballB n.
  set (movedA := if negb (Ball.isFrozen ballA) then _ else ballA).
  set (movedB := if negb (Ball.isFrozen ballB) then _ else ballB).
  assert (HrA : restOf movedA = restOf ballA)
    by (subst movedA; now destruct (negb (Ball.isFrozen ballA))).
  assert (HrB : restOf movedB = restOf ballB)
    by (subst movedB; now destruct (negb (Ball.isFrozen ballB))).
  clearbody movedA movedB.
  destruct (Ball.isFrozen movedA && Ball.isFrozen movedB); [now split|].
  destruct (_ <? _)%js; [now split|].
  split.
  - etransitivity; [apply (impulses_rest (movedA, movedB))|exact HrA].
  - etransitivity; [apply (impulses_rest (movedA, movedB))|exact HrB].
Qed.

(** X4. [resolveCollision] writes positions and velocities only: the id, size,
    gravity, mass, frozen flag and acceleration of both balls are as before,
    also when the call throws. *)
Theorem resolveCollision_writes_motion_only (N : Number) (ballA ballB : Ball.t)
  (dt : num) :
  let after := fst (PhysicsSystem.resolveCollision ballA ballB dt) in
  restOf (fst after) = restOf ballA /\ restOf (snd after) = restOf ballB.
Proof. apply resolveCollision_rest. Qed.

Lemma applyImpulse_zero_mass `{Number} combine impulse (ball : Ball.t) :
  Ball.isFrozen ball = false ->
  (Ball.mass ball === of_Z 0)%js = true ->
  PhysicsSystem.applyImpulse combine impulse ball
  = (ball, Throw (Error "Cannot divide vector by zero")).
Proof.
  intros Hf Hm. unfold PhysicsSystem.applyImpulse. rewrite Hf; cbn [negb].
  now rewrite (divide_zero _ _ Hm).
Qed.

(** X7. When the first ball is not frozen and its mass is [=== 0], and the balls
    are not separating, [resolveCollision] throws "Cannot divide vector by
    zero".  It throws after the positional correction and before any velocity
    is written: the first ball has been moved and both velocities are as they
    were. *)
Theorem zero_mass_throws_after_correction (N : Number) (ballA ballB : Ball.t)
  (dt : num) :
  let after := PhysicsSystem.resolveCollision ballA ballB dt in
  Ball.isFrozen ballA = false ->
  (Ball.mass ballA === of_Z 0)%js = true ->
  (of_Z 0 <? velocityAlongNormal ballA ballB)%js = false ->
  snd after = Throw (Error "Cannot divide vector by zero")
  /\ Ball.velocity (fst (fst after)) = Ball.velocity ballA
  /\ Ball.velocity (snd (fst after)) = Ball.velocity ballB
  /\ Ball.position (fst (fst after))
     = Vector2D.subtract (Ball.position ballA)
         (Vector2D.multiply (fst (contactNormal ballA ballB))
            (penetration ballA ballB
             * (Ball.mass ballB / (Ball.mass ballA + Ball.mass ballB)))%js).
Proof.
  cbv zeta. intros HfA HmA Hvn.
  unfold velocityAlongNormal, penetration in *. revert Hvn.
  enter_resolution ballA ballB n. cbn [fst]. intros Hvn.
  rewrite HfA; cbn [negb].
  set (movedA := Ball.set_position ballA _).
  set (movedB := if negb (Ball.isFrozen ballB) then _ else ballB).
  assert (HvB : Ball.velocity movedB = Ball.velocity ballB)
    by (subst movedB; now destruct (negb (Ball.isFrozen ballB))).
  assert (HpA : Ball.position movedA
                = Vector2D.subtract (Ball.position ballA)
                    (Vector2D.multiply n
                       ((Ball.size ballA + Ball.size ballB
                         - Vector2D.magnitude
                             (Vector2D.new
                                (Vector2D.x (Ball.position ballB)
                                 - Vector2D.x (Ball.position ballA))
                                (Vector2D.y (Ball.position ballB)
                                 - Vector2D.y (Ball.position ballA))))
                        * (Ball.mass ballB
                           / (Ball.mass ballA + Ball.mass ballB)))%js))
    by reflexivity.
  assert (HvA : Ball.velocity movedA = Ball.velocity ballA) by reflexivity.
  assert (HmA' : Ball.mass movedA = Ball.mass ballA) by reflexivity.
  assert (HfA' : Ball.isFrozen movedA = false) by exact HfA.
  clearbody movedA movedB.
  rewrite HfA', HvA, HvB; cbn [andb]. rewrite Hvn.
  match goal with
  | |- context [PhysicsSystem.onA ?f (movedA, movedB) ;; ?k1 ;; ?k2] =>
      assert (E : (PhysicsSystem.onA f (movedA, movedB) ;; k1 ;; k2)
                  = ((movedA, movedB),
                     Throw (Error "Cannot divide vector by zero")))
  end.
  { unfold PhysicsSystem.onA. cbn [fst snd].
    rewrite applyImpulse_zero_mass by (assumption || now rewrite HmA').
    reflexivity. }
  rewrite E. cbn [fst snd]. auto.
Qed.

(** The theorem on [speck] and [ordinary]. *)
Lemma zero_mass_throws_after_correction_witness :
  Ball.mass speck = 0%float
  /\ snd (PhysicsSystem.resolveCollision speck ordinary 0.5%float)
     = Throw (Error "Cannot divide vector by zero").
Proof.
  split; [reflexivity|].
  apply (zero_mass_throws_after_correction FloatNumber speck ordinary 0.5%float);
    reflexivity.
Defined.

(** X8. When the balls are already separating along the normal,
    [resolveCollision] returns and leaves both velocities as they were. *)
Theorem separating_balls_keep_velocity (N : Number) (ballA ballB : Ball.t)
  (dt : num) :
  let after := PhysicsSystem.resolveCollision ballA ballB dt in
  (of_Z 0 <? velocityAlongNormal ballA ballB)%js = true ->
  snd after = Normal
  /\ Ball.velocity (fst (fst after)) = Ball.velocity ballA
  /\ Ball.velocity (snd (fst after)) = Ball.velocity ballB.
Proof.
  cbv zeta. unfold velocityAlongNormal.
  enter_resolution ballA ballB n. cbn [fst]. intros Hvn.
  set (movedA := if negb (Ball.isFrozen ballA) then _ else ballA).
  set (movedB := if negb (Ball.isFrozen ballB) then _ else ballB).
  assert (HvA : Ball.velocity movedA = Ball.velocity ballA)
    by (subst movedA; now destruct (negb (Ball.isFrozen ballA))).
  assert (HvB : Ball.velocity movedB = Ball.velocity ballB)
    by (subst movedB; now destruct (negb (Ball.isFrozen ballB))).
  clearbody movedA movedB.
  destruct (Ball.isFrozen movedA && Ball.isFrozen movedB); [simpl; auto|].
  rewrite HvA, HvB, Hvn. simpl; auto.
Qed.

(** The theorem on [departingLeft] and [departingRight]. *)
Lemma separating_balls_keep_velocity_witness :
  snd (PhysicsSystem.resolveCollision departingLeft departingRight 0.5%float)
  = Normal
  /\ Ball.velocity
       (fst (fst (PhysicsSystem.resolveCollision departingLeft departingRight
                    0.5%float)))
     = Ball.velocity departingLeft
  /\ Ball.velocity
       (snd (fst (PhysicsSystem.resolveCollision departingLeft departingRight
                    0.5%float)))
     = Ball.velocity departingRight.
Proof.
  apply (separating_balls_keep_velocity FloatNumber departingLeft departingRight
           0.5%float).
  reflexivity.
Defined.

(** ** Vector2D.normalize and Vector2D.limit *)

Lemma normalize_value `{Number} (v : Vector2D.t) :
  Vector2D.normalize v
  = (if (Vector2D.magnitude v >? of_Z 0)%js
     then Vector2D.new (Vector2D.x v / Vector2D.magnitude v)%js
                       (Vector2D.y v / Vector2D.magnitude v)%js
     else v,
     Normal).
Proof.
  unfold Vector2D.normalize; cbv zeta.
  destruct (of_Z 0 <? Vector2D.magnitude v)%js eqn:Hmag; [|reflexivity].
  apply divide_nonzero. now apply ltb_zero_neq.
Qed.

Lemma limit_value `{Number} (v : Vector2D.t) (max : num) :
  Vector2D.limit v max
  = (if (Vector2D.magnitudeSquared v >? max * max)%js
     then Vector2D.multiply (fst (Vector2D.normalize v)) max
     else v,
     Normal).
Proof.
  unfold Vector2D.limit; cbv zeta.
  destruct (_ <? _)%js; [|reflexivity].
  now rewrite normalize_value.
Qed.

(** X9. [normalize] and [limit] return for every vector, though both reach
    [divide]: the divisor is a magnitude that was found above zero.
    [normalize] leaves a vector whose computed magnitude is not above zero
    (zero, or NaN) as it is and divides the components of any other by the
    computed magnitude; [limit] leaves a vector whose computed squared
    magnitude is not above [max * max] as it is and gives any other
    normalized and multiplied by [max].  On binary64 what comes out need not
    have magnitude 1, or [max]: the squares of (3 * 2^700, 4 * 2^700) overflow
    and both calls give (0, 0), and the squares of (3 * 2^-700, 4 * 2^-700)
    underflow and [normalize] leaves the vector as it is. *)
Theorem normalize_and_limit_return :
  (forall (N : Number) (v : Vector2D.t) (max : num),
      Vector2D.normalize v
      = (if (Vector2D.magnitude v >? of_Z 0)%js
         then Vector2D.new (Vector2D.x v / Vector2D.magnitude v)%js
                           (Vector2D.y v / Vector2D.magnitude v)%js
         else v,
         Normal)
      /\ Vector2D.limit v max
         = (if (Vector2D.magnitudeSquared v >? max * max)%js
            then Vector2D.multiply (fst (Vector2D.normalize v)) max
            else v,
            Normal))
  /\ Vector2D.normalize (@Vector2D.new FloatNumber 0x1.8p+701%float 0x1p+702%float)
     = (@Vector2D.new FloatNumber 0%float 0%float, Normal)
  /\ Vector2D.limit (@Vector2D.new FloatNumber 0x1.8p+701%float 0x1p+702%float)
                    500%float
     = (@Vector2D.new FloatNumber 0%float 0%float, Normal)
  /\ Vector2D.normalize (@Vector2D.new FloatNumber 0x1.8p-699%float 0x1p-698%float)
     = (@Vector2D.new FloatNumber 0x1.8p-699%float 0x1p-698%float, Normal).
Proof.
  split; [|repeat split; vm_compute; reflexivity].
  intros N v max. split; [apply normalize_value|apply limit_value].
Qed.

(** ** Ball.update and Ball.applyForce *)

(** [Ball.update] on a ball that is not frozen, with the velocity it limits. *)
Lemma Ball_update_free `{Number} (ball : Ball.t) (dt : num) :
  Ball.isFrozen ball = false ->
  let accelerationY :=
    if negb (Ball.gravity ball === of_Z 0)%js then Ball.gravity ball
    else Vector2D.y (Ball.acceleration ball) in
  let unlimited :=
    Vector2D.add (Ball.velocity ball)
      (Vector2D.new (Vector2D.x (Ball.acceleration ball) * dt)%js
                    (accelerationY * dt)%js) in
  let velocity := fst (Vector2D.limit unlimited Config.maxVelocity) in
  Ball.update ball dt
  = (Ball.Build (Ball.id ball)
       (Vector2D.add (Ball.position ball)
          (Vector2D.new (Vector2D.x velocity * dt)%js
                        (Vector2D.y velocity * dt)%js))
       velocity (Vector2D.new (of_Z 0) (of_Z 0))
       (Ball.size ball) (Ball.gravity ball) (Ball.mass ball) false,
     Normal).
Proof.
  intros Hf; cbv zeta. unfold Ball.update. rewrite Hf.
  destruct (negb (Ball.gravity ball === of_Z 0)%js); cbv zeta;
    cbn [Ball.velocity Ball.acceleration Ball.set_acceleration Ball.set_velocity
         Vector2D.x Vector2D.y];
    match goal with
    | |- context [Vector2D.limit ?v ?m] =>
        pose proof (limit_returns v m) as Hl;
        destruct (Vector2D.limit v m) as [v' c]
    end;
    cbn [fst snd] in *; subst c; cbn [andThen ret];
    unfold Ball.set_position, Ball.set_acceleration, Ball.set_velocity;
    cbn; now rewrite Hf.
Qed.

(** X12. On a ball that is not frozen, whose gravity is not zero and whose mass
    is not zero, [update] overwrites the y component of the acceleration with
    the gravity: the y component of a force applied with [applyForce] has no
    effect on the ball that [update] leaves. *)
Theorem gravity_overrides_vertical_force (N : Number) (ball : Ball.t)
  (fx fy1 fy2 dt : num) :
  Ball.isFrozen ball = false ->
  (Ball.gravity ball === of_Z 0)%js = false ->
  (Ball.mass ball === of_Z 0)%js = false ->
  snd (Ball.applyForce ball (Vector2D.new fx fy1)) = Normal
  /\ snd (Ball.applyForce ball (Vector2D.new fx fy2)) = Normal
  /\ Ball.update (fst (Ball.applyForce ball (Vector2D.new fx fy1))) dt
     = Ball.update (fst (Ball.applyForce ball (Vector2D.new fx fy2))) dt.
Proof.
  intros Hf Hg Hm.
  unfold Ball.applyForce, Vector2D.clone.
  rewrite !(divide_nonzero _ _ Hm). cbn [withArg ret fst snd].
  split; [reflexivity|]. split; [reflexivity|].
  rewrite !Ball_update_free by exact Hf.
  cbn [Ball.gravity Ball.set_acceleration]. rewrite Hg. reflexivity.
Qed.

(** The theorem on [heavyBall], pushed sideways by 800 and up by 4000 or not at
    all. *)
Lemma gravity_overrides_vertical_force_witness :
  Ball.update
    (fst (Ball.applyForce heavyBall (@Vector2D.new FloatNumber 800%float (-4000)%float)))
    0.5%float
  = Ball.update
      (fst (Ball.applyForce heavyBall (@Vector2D.new FloatNumber 800%float 0%float)))
      0.5%float.
Proof.
  apply (gravity_overrides_vertical_force FloatNumber heavyBall 800%float
           (-4000)%float 0%float 0.5%float); reflexivity.
Defined.

(** ** Engine: the canvas *)

Lemma boundaryChecks_identity (d : @Engine.Dimensions RealNumber)
  (ball : @Ball.t RealNumber) :
  insideCanvas d ball -> Engine.boundaryChecks d ball = ball.
Proof.
  intros [[Hx1 Hx2] [Hy1 Hy2]].
  unfold Engine.boundaryChecks, Engine.checkX.
  change (@ltb RealNumber) with Rltb. change (@of_Z RealNumber 0) with 0%R.
  change (@sub RealNumber) with Rminus. change (@add RealNumber) with Rplus.
  replace (Rltb (Vector2D.x (Ball.position ball) - Ball.size ball) 0)
    with false by (symmetry; apply Rltb_false; lra).
  replace (Rltb (Engine.width d) (Vector2D.x (Ball.position ball) + Ball.size ball))
    with false by (symmetry; apply Rltb_false; lra).
  unfold Engine.checkY.
  change (@ltb RealNumber) with Rltb. change (@of_Z RealNumber 0) with 0%R.
  change (@sub RealNumber) with Rminus. change (@add RealNumber) with Rplus.
  replace (Rltb (Vector2D.y (Ball.position ball) - Ball.size ball) 0)
    with false by (symmetry; apply Rltb_false; lra).
  replace (Rltb (Engine.height d) (Vector2D.y (Ball.position ball) + Ball.size ball))
    with false by (symmetry; apply Rltb_false; lra).
  reflexivity.
Qed.

(** X14. Over the reals, [update] on an engine that is not paused leaves a
    frozen ball that lies within the canvas exactly as it was.  (The boundary
    checks do not look at the frozen flag: a frozen ball past an edge is moved
    back and has its velocity reflected like any other.) *)
Theorem frozen_ball_inside_is_untouched (e : @Engine.t RealNumber) (dt : R)
  (i : nat) (ball : @Ball.t RealNumber) :
  nth_error (Engine.balls e) i = Some ball ->
  Ball.isFrozen ball = true ->
  insideCanvas (Engine.canvas e) ball ->
  nth_error (Engine.balls (fst (Engine.update e dt))) i = Some ball.
Proof.
  intros Hi Hf Hin. rewrite Engine_update_ticks.
  destruct (Engine.isPaused e); cbn [fst]; [exact Hi|].
  cbn [Engine.balls Engine.set_balls]. rewrite nth_error_map, Hi. cbn.
  unfold tick, Ball.update. rewrite Hf. cbn [ret fst].
  now rewrite boundaryChecks_identity.
Qed.

(** The theorem on the first ball of [parked]. *)
Lemma frozen_ball_inside_is_untouched_witness :
  nth_error (Engine.balls (fst (Engine.update parked 1%R))) 0
  = nth_error (Engine.balls parked) 0.
Proof.
  apply (frozen_ball_inside_is_untouched parked 1%R 0).
  - reflexivity.
  - reflexivity.
  - unfold insideCanvas; simpl. lra.
Defined.

(** On binary64, the frozen ball of the boundary example, across the left
    edge, is moved to [x = 20] and its velocity is reflected to 24. *)
Example frozen_ball_outside_is_moved :
  let e := @Engine.Build FloatNumber
             [ Ball.set_isFrozen bounceExample true ] false
             (@Engine.dimensions_of FloatNumber 800%float 600%float) in
  map (fun ball => (Vector2D.x (Ball.position ball), Vector2D.x (Ball.velocity ball)))
      (Engine.balls (fst (Engine.update e 0.5%float)))
  = [(20%float, 24%float)].
Proof. vm_compute. reflexivity. Qed.

(** ** Engine: adding and removing balls *)

Lemma findIndex_none `{Number} (p : Ball.t -> bool) (balls : list Ball.t) :
  (forall ball, In ball balls -> p ball = false) ->
  Engine.findIndex p balls = None.
Proof.
  induction balls as [|ball rest IH]; intros Hp; [reflexivity|].
  simpl. rewrite (Hp ball) by now left.
  rewrite IH; [reflexivity|]. intros b Hb. apply Hp. now right.
Qed.

Lemma findIndex_first `{Number} (p : Ball.t -> bool)
  (before : list Ball.t) (ball : Ball.t) (rest : list Ball.t) :
  (forall b, In b before -> p b = false) ->
  p ball = true ->
  Engine.findIndex p (before ++ ball :: rest) = Some (List.length before).
Proof.
  induction before as [|b before IH]; intros Hb Hp; simpl.
  - now rewrite Hp.
  - rewrite (Hb b) by now left.
    rewrite IH; [reflexivity| |exact Hp]. intros b' Hb'. apply Hb. now right.
Qed.

Lemma splice1_middle `{Number} (before : list Ball.t) (ball : Ball.t)
  (rest : list Ball.t) :
  Engine.splice1 (before ++ ball :: rest) (List.length before) = before ++ rest.
Proof.
  induction before as [|b before IH]; [reflexivity|].
  change (Engine.splice1 ((b :: before) ++ ball :: rest)
                         (List.length (b :: before)))
    with (b :: Engine.splice1 (before ++ ball :: rest) (List.length before)).
  now rewrite IH.
Qed.

Lemma removeBall_absent `{Number} (e : Engine.t) (ballId : Z) :
  (forall ball, In ball (Engine.balls e) -> Ball.id ball <> ballId) ->
  Engine.removeBall e ballId = (e, false).
Proof.
  intros Habs. unfold Engine.removeBall.
  rewrite findIndex_none; [reflexivity|].
  intros ball Hin. apply Z.eqb_neq. now apply Habs.
Qed.

Lemma removeBall_present `{Number} (e : Engine.t) (ballId : Z)
  (before : list Ball.t) (ball : Ball.t) (rest : list Ball.t) :
  Engine.balls e = before ++ ball :: rest ->
  (forall b, In b before -> Ball.id b <> ballId) ->
  Ball.id ball = ballId ->
  Engine.removeBall e ballId = (Engine.set_balls e (before ++ rest), true).
Proof.
  intros Hb Hbefore Hid. unfold Engine.removeBall. rewrite Hb.
  rewrite findIndex_first.
  - now rewrite splice1_middle.
  - intros b Hin. apply Z.eqb_neq. now apply Hbefore.
  - now apply Z.eqb_eq.
Qed.

(** X15. [removeBall(id)] answers false and changes nothing when no ball has
    that id; otherwise it answers true and removes the first ball with that
    id, keeping every other ball, in the same order. *)
Theorem removeBall_removes_first_match (N : Number) (e : Engine.t) (ballId : Z) :
  ((forall ball, In ball (Engine.balls e) -> Ball.id ball <> ballId) ->
   Engine.removeBall e ballId = (e, false))
  /\ (forall before ball rest,
        Engine.balls e = before ++ ball :: rest ->
        (forall b, In b before -> Ball.id b <> ballId) ->
        Ball.id ball = ballId ->
        Engine.removeBall e ballId
        = (Engine.set_balls e (before ++ rest), true)).
Proof.
  split; [apply removeBall_absent|].
  intros before ball rest. apply removeBall_present.
Qed.

Lemma Ball_new_id `{Number} id x y vx vy size gravity :
  Ball.id (Ball.new id x y vx vy size gravity) = id.
Proof. reflexivity. Qed.

Lemma create_freshIds `{Number} (canvas : Engine.Dimensions) :
  freshIds (Engine.create canvas).
Proof. split; [constructor|intros ball []]. Qed.

Lemma addBall_freshIds `{Number} (c : Engine.counted) x y vx vy size gravity :
  freshIds c -> freshIds (fst (Engine.addBall c x y vx vy size gravity)).
Proof.
  intros [Hnd Hlt]. unfold freshIds, Engine.addBall; cbn.
  split.
  - rewrite map_app. cbn.
    apply NoDup_app; [exact Hnd|repeat constructor; intros []|].
    intros id Hin [<-|[]]. apply in_map_iff in Hin.
    destruct Hin as (ball & Hid & Hin). specialize (Hlt ball Hin). lia.
  - intros ball Hin. apply in_app_or in Hin. destruct Hin as [Hin|[<-|[]]].
    + specialize (Hlt ball Hin). lia.
    + cbn. lia.
Qed.

Lemma splice1_incl `{Number} (balls : list Ball.t) (index : nat) ball :
  In ball (Engine.splice1 balls index) -> In ball balls.
Proof.
  unfold Engine.splice1. intros Hin. apply in_app_or in Hin.
  destruct Hin as [Hin|Hin].
  - rewrite <- (firstn_skipn index balls). apply in_or_app. now left.
  - rewrite <- (firstn_skipn (S index) balls). apply in_or_app. now right.
Qed.

Lemma splice1_NoDup `{Number} (balls : list Ball.t) (index : nat) :
  NoDup (map Ball.id balls) -> NoDup (map Ball.id (Engine.splice1 balls index)).
Proof.
  revert index. induction balls as [|ball rest IH]; intros index Hnd.
  - unfold Engine.splice1. rewrite firstn_nil, skipn_nil. constructor.
  - destruct index as [|index].
    + unfold Engine.splice1; simpl. now inversion Hnd.
    + change (Engine.splice1 (ball :: rest) (S index))
        with (ball :: Engine.splice1 rest index).
      simpl. inversion Hnd as [|? ? Hnotin Hrest]; subst.
      constructor; [|now apply IH].
      intros Hin. apply Hnotin. apply in_map_iff in Hin.
      destruct Hin as (b & Hid & Hin). apply in_map_iff. exists b.
      split; [exact Hid|]. eapply splice1_incl; eauto.
Qed.

Lemma removeCounted_freshIds `{Number} (c : Engine.counted) (ballId : Z) :
  freshIds c -> freshIds (fst (Engine.removeCounted c ballId)).
Proof.
  intros [Hnd Hlt]. unfold freshIds, Engine.removeCounted, Engine.removeBall.
  destruct (Engine.findIndex _ _) as [index|]; cbn; [|now split].
  split; [now apply splice1_NoDup|].
  intros ball Hin. apply Hlt. eapply splice1_incl; eauto.
Qed.

Lemma reachable_freshIds `{Number} (c : Engine.counted) :
  reachable c -> freshIds c.
Proof.
  induction 1;
    [apply create_freshIds | now apply addBall_freshIds
     | now apply removeCounted_freshIds].
Qed.

(** X16. In every engine reached from the constructor by [addBall] and
    [removeBall], no two balls have the same id, and [addBall] gives the new
    ball an id that no ball of the engine has. *)
Theorem ids_stay_unique (N : Number) (c : Engine.counted) :
  reachable c ->
  NoDup (map Ball.id (Engine.balls (Engine.engine c)))
  /\ forall x y vx vy size gravity,
      ~ In (Ball.id (snd (Engine.addBall c x y vx vy size gravity)))
           (map Ball.id (Engine.balls (Engine.engine c))).
Proof.
  intros Hr. destruct (reachable_freshIds c Hr) as [Hnd Hlt].
  split; [exact Hnd|].
  intros x y vx vy size gravity Hin. cbn in Hin.
  apply in_map_iff in Hin. destruct Hin as (ball & Hid & Hin).
  specialize (Hlt ball Hin). lia.
Qed.

(** X17. In such an engine, removing the ball that [addBall] has just returned,
    by its id, answers true and gives back the balls the engine had before the
    ball was added; the counter stays advanced. *)
Theorem addBall_then_removeBall (N : Number) (c : Engine.counted)
  (x y vx vy size gravity : num) :
  reachable c ->
  let added := Engine.addBall c x y vx vy size gravity in
  Engine.removeCounted (fst added) (Ball.id (snd added))
  = (Engine.Counted (Engine.engine c) (Engine.nextBallId c + 1)%Z, true).
Proof.
  intros Hr; cbv zeta. destruct (reachable_freshIds c Hr) as [Hnd Hlt].
  unfold Engine.removeCounted, Engine.addBall; cbn [fst snd Engine.engine
    Engine.nextBallId].
  rewrite Ball_new_id.
  rewrite (removeBall_present _ _ (Engine.balls (Engine.engine c))
             (Ball.new (Engine.nextBallId c) x y vx vy size gravity) []).
  - cbn [fst snd]. rewrite app_nil_r. now destruct (Engine.engine c).
  - reflexivity.
  - intros b Hin. specialize (Hlt b Hin). lia.
  - reflexivity.
Qed.

(** The theorem on [twoAdded]. *)
Lemma ids_stay_unique_witness :
  NoDup (map Ball.id (Engine.balls (Engine.engine twoAdded))).
Proof.
  apply (ids_stay_unique FloatNumber twoAdded).
  apply reached_add, reached_add, reached_create.
Defined.

(** The theorem on [twoAdded] and a third ball. *)
Lemma addBall_then_removeBall_witness :
  Engine.removeCounted
    (fst (Engine.addBall twoAdded 300%float 100%float 0%float 0%float 20%float 0%float))
    3
  = (Engine.Counted (Engine.engine twoAdded) 4, true).
Proof.
  apply (addBall_then_removeBall FloatNumber twoAdded 300%float 100%float
           0%float 0%float 20%float 0%float).
  apply reached_add, reached_add, reached_create.
Defined.

(** ** Quadtree.query *)

Section TreeInduction.
Context `{Number}.
Variable P : Quadtree.t -> Prop.
Hypothesis step :
  forall bounds capacity maxDepth depth objects divided children,
    Forall P children ->
    P (Quadtree.Node bounds capacity maxDepth depth objects divided children).

Fixpoint tree_induction (this : Quadtree.t) : P this :=
  match this with
  | Quadtree.Node b c m d objs dv children =>
      step b c m d objs dv children
        ((fix all (l : list Quadtree.t) : Forall P l :=
            match l with
            | [] => Forall_nil P
            | child :: rest => Forall_cons child (tree_induction child) (all rest)
            end) children)
  end.

End TreeInduction.

Lemma query_fold `{Number} (object : Quadtree.Object) (children : list Quadtree.t) :
  Forall (fun child => forall found,
            Quadtree.query child object found
            = found ++ Quadtree.query child object []) children ->
  forall found,
    fold_left (fun found child => Quadtree.query child object found)
              children found
    = found ++ flat_map (fun child => Quadtree.query child object []) children.
Proof.
  induction 1 as [|child rest Hc _ IH]; intros found; simpl.
  - now rewrite app_nil_r.
  - rewrite IH, Hc. now rewrite app_assoc.
Qed.

Lemma query_accumulates `{Number} (object : Quadtree.Object) (this : Quadtree.t) :
  forall found,
    Quadtree.query this object found = found ++ Quadtree.query this object [].
Proof.
  induction this as [b c m d objs dv children IH] using tree_induction.
  intros found. simpl.
  destruct (negb (Quadtree.intersects _ object)); [now rewrite app_nil_r|].
  destruct dv.
  - rewrite !(query_fold object children IH). cbn [app].
    now rewrite app_assoc.
  - cbn [app]. reflexivity.
Qed.

Lemma query_node `{Number} (object : Quadtree.Object) b c m d objs dv children :
  Quadtree.query (Quadtree.Node b c m d objs dv children) object []
  = if Quadtree.intersects (Quadtree.Node b c m d objs dv children) object
    then others objs object
         ++ (if dv
             then flat_map (fun child => Quadtree.query child object []) children
             else [])
    else [].
Proof.
  simpl Quadtree.query.
  destruct (Quadtree.intersects _ object); cbn [negb]; [|reflexivity].
  destruct dv.
  - rewrite query_fold; [reflexivity|].
    apply Forall_forall. intros child _. apply query_accumulates.
  - cbn [app]. now rewrite app_nil_r.
Qed.

(** X18. [query(object, found)] appends to [found] and never reorders or drops
    what is in it: the result is [found] followed by the result of the query
    with an empty array.  That result is empty for a node the query box does
    not intersect, and otherwise the node's own objects except the query
    object itself (the same reference; an object that only holds the same
    values is kept), followed by the results of the children in order when the
    node is divided. *)
Theorem query_appends_in_order (N : Number) (object : Quadtree.Object) :
  (forall this found,
      Quadtree.query this object found
      = found ++ Quadtree.query this object [])
  /\ (forall b c m d objs dv children,
         Quadtree.query (Quadtree.Node b c m d objs dv children) object []
         = if Quadtree.intersects (Quadtree.Node b c m d objs dv children) object
           then others objs object
                ++ (if dv
                    then flat_map (fun child => Quadtree.query child object [])
                                  children
                    else [])
           else []).
Proof.
  split; [intros this found; apply query_accumulates|].
  intros. apply query_node.
Qed.

Lemma query_sound `{Number} (object : Quadtree.Object) (this : Quadtree.t) :
  forall found, In found (Quadtree.query this object []) ->
    In found (allObjects this)
    /\ Quadtree.address found <> Quadtree.address object.
Proof.
  induction this as [b c m d objs dv children IH] using tree_induction.
  intros found. rewrite query_node.
  destruct (Quadtree.intersects _ object); [|intros []].
  intros Hin. apply in_app_or in Hin. destruct Hin as [Hin|Hin].
  - unfold others in Hin. apply filter_In in Hin. destruct Hin as [Hin Hid].
    split; [simpl; apply in_or_app; now left|].
    apply negb_true_iff, Nat.eqb_neq in Hid. exact Hid.
  - destruct dv; [|destruct Hin].
    apply in_flat_map in Hin. destruct Hin as (child & Hchild & Hin).
    rewrite Forall_forall in IH. destruct (IH child Hchild found Hin) as [Ha Hid].
    split; [|exact Hid].
    simpl. apply in_or_app. right. apply in_flat_map. eauto.
Qed.

(** X19. Every object that [query(object)] returns is stored in the tree and
    is not [object] itself: the query invents nothing and never returns the
    reference it was called with. *)
Theorem query_returns_stored_others (N : Number) (this : Quadtree.t)
  (object found : Quadtree.Object) :
  In found (Quadtree.query this object []) ->
  In found (allObjects this)
  /\ Quadtree.address found <> Quadtree.address object.
Proof. apply query_sound. Qed.

(** The theorem on [dividedArena], [probe] and [cornerBall]. *)
Lemma query_returns_stored_others_witness :
  In cornerBall (allObjects dividedArena)
  /\ Quadtree.address cornerBall <> Quadtree.address probe.
Proof.
  apply (query_returns_stored_others FloatNumber dividedArena probe cornerBall).
  vm_compute. left. reflexivity.
Defined.

(** The query compares references: called with [cornerBall] itself it leaves
    [cornerBall] out, and called with [lookalike], another object that holds
    the same values, the same id among them, it returns [cornerBall]. *)
Example query_compares_references :
  Quadtree.query dividedArena cornerBall [] = []
  /\ Quadtree.ball lookalike = Quadtree.ball cornerBall
  /\ Quadtree.query dividedArena lookalike [] = [cornerBall].
Proof. repeat split; vm_compute; reflexivity. Qed.

(** ** Quadtree.insert and Quadtree.clear *)

(** An [insert] that answers true or false ends in the node itself: it has
    left the node as it was, or with the object pushed onto its objects. *)
Lemma insert_answered `{Number} (fuel : nat) (this this' : Quadtree.t)
  (object : Quadtree.Object) (answer : bool) :
  Quadtree.insert fuel this object = Some (this', Quadtree.Returned answer) ->
  this' = if answer
          then Quadtree.set_objects this (Quadtree.objects this ++ [object])
          else this.
Proof.
  destruct fuel as [|fuel]; [discriminate|]. cbn [Quadtree.insert].
  destruct (Quadtree.intersects this object); cbn [negb];
    [|intros Heq; injection Heq as <- <-; reflexivity].
  destruct (negb (Quadtree.divided this) && _);
    [intros Heq; injection Heq as <- <-; reflexivity|].
  destruct (Quadtree.depth this >=? Quadtree.maxDepth this)%Z;
    [intros Heq; injection Heq as <- <-; reflexivity|].
  destruct (if negb (Quadtree.divided this) then _ else _) as [next|];
    [|discriminate].
  destruct (Quadtree.insertToChildren _ next object); discriminate.
Qed.

Lemma settled_keeps `{Number} (this this' : Quadtree.t) :
  settled this this' ->
  Quadtree.bounds this' = Quadtree.bounds this
  /\ Quadtree.divided this' = Quadtree.divided this
  /\ forall object, In object (Quadtree.objects this) ->
                    In object (Quadtree.objects this').
Proof.
  induction 1 as [this|fuel this object this' answer this'' Hi _ IH];
    [auto|].
  apply insert_answered in Hi. subst this'. destruct IH as (Hb & Hd & Ho).
  rewrite Hb, Hd.
  destruct answer, this as [b c m d objs dv children]; repeat split; auto.
  intros o Hin. apply Ho. cbn. apply in_or_app. now left.
Qed.

Lemma stored_object_is_found `{Number} (this : Quadtree.t)
  (object other : Quadtree.Object) :
  In object (Quadtree.objects this) ->
  Quadtree.intersects this other = true ->
  Quadtree.address object <> Quadtree.address other ->
  In object (Quadtree.query this other []).
Proof.
  intros Hin Ho Hid. destruct this as [b c m d objs dv children].
  rewrite query_node, Ho. apply in_or_app. left.
  unfold others. apply filter_In. split; [exact Hin|].
  apply negb_true_iff, Nat.eqb_neq. exact Hid.
Qed.

(** X20. When [insert(object)] answers true, the object is stored in the node
    itself, and a query on that node with any other object whose box
    intersects the node's bounds returns it: right after the insert, and
    after any further inserts into the node that answer true or false.  (An
    insert that answers [undefined] has gone on to the children, subdividing
    the node if it was a leaf, and after it the object may be gone.) *)
Theorem inserted_object_is_found (N : Number) (fuel : nat)
  (this this' later : Quadtree.t) (object other : Quadtree.Object) :
  Quadtree.insert fuel this object = Some (this', Quadtree.Returned true) ->
  settled this' later ->
  Quadtree.intersects this other = true ->
  Quadtree.address object <> Quadtree.address other ->
  In object (Quadtree.objects later)
  /\ In object (Quadtree.query later other []).
Proof.
  intros Hi Hs Ho Hid.
  pose proof (insert_answered fuel this this' object true Hi) as Heq.
  destruct (settled_keeps this' later Hs) as (Hb & _ & Hkeep).
  assert (Hin : In object (Quadtree.objects later)).
  { apply Hkeep. rewrite Heq. destruct this; cbn. apply in_or_app. right. now left. }
  split; [exact Hin|].
  apply stored_object_is_found; [exact Hin| |exact Hid].
  assert (Hbounds : Quadtree.bounds later = Quadtree.bounds this)
    by (rewrite Hb, Heq; now destruct this).
  unfold Quadtree.intersects in *. now rewrite Hbounds.
Qed.

(** The theorem on [roomyArena]: [straddler] is inserted, then [farBall], both
    with the answer true, and the query with [probe] returns [straddler]. *)
Lemma inserted_object_is_found_witness :
  In straddler
     (Quadtree.objects (Quadtree.set_objects roomyArena [straddler; farBall]))
  /\ In straddler
        (Quadtree.query (Quadtree.set_objects roomyArena [straddler; farBall])
                        probe []).
Proof.
  apply (inserted_object_is_found FloatNumber 1 roomyArena
           (Quadtree.set_objects roomyArena [straddler])
           (Quadtree.set_objects roomyArena [straddler; farBall])
           straddler probe).
  - reflexivity.
  - apply (settled_insert 1 (Quadtree.set_objects roomyArena [straddler]) farBall
             (Quadtree.set_objects roomyArena [straddler; farBall]) true);
      [reflexivity|apply settled_here].
  - reflexivity.
  - vm_compute. discriminate.
Defined.

Lemma clear_query `{Number} (this : Quadtree.t) (object : Quadtree.Object) found :
  Quadtree.query (Quadtree.clear this) object found = found.
Proof.
  rewrite query_accumulates.
  destruct this as [b c m d objs dv children].
  unfold Quadtree.clear, Quadtree.set_objects.
  cbn [Quadtree.divided Quadtree.bounds Quadtree.capacity
       Quadtree.maxDepth Quadtree.depth Quadtree.children Quadtree.objects].
  destruct dv;
    unfold Quadtree.set_divided, Quadtree.set_children;
    cbn [Quadtree.bounds
         Quadtree.capacity Quadtree.maxDepth Quadtree.depth Quadtree.children
         Quadtree.objects Quadtree.divided];
    rewrite query_node;
    destruct (Quadtree.intersects _ object); now rewrite app_nil_r.
Qed.

(** X21. [clear] empties the tree: a query on a cleared tree adds nothing to
    [found], whatever the tree held; and a well-formed tree becomes the leaf
    that the constructor builds for the same bounds, capacity, depth limit and
    depth. *)
Theorem clear_empties_tree (N : Number) (this : Quadtree.t) :
  (forall object found,
      Quadtree.query (Quadtree.clear this) object found = found)
  /\ allObjects (Quadtree.clear this) = []
  /\ (wellFormed this ->
      Quadtree.clear this
      = Quadtree.new (Quadtree.bounds this) (Quadtree.capacity this)
                     (Quadtree.maxDepth this) (Quadtree.depth this)).
Proof.
  split; [intros; apply clear_query|].
  destruct this as [b c m d objs dv children]. unfold Quadtree.clear.
  destruct dv; cbn; split; try reflexivity.
  intros ->. reflexivity.
Qed.

(** X22. On a well-formed tree [insert] returns once the fuel exceeds the
    levels left between the node's depth and the depth limit: the nesting of
    calls is bounded by [maxDepth - depth + 1].  The tree it leaves is
    well-formed again, with the same depth and depth limit. *)
Theorem insert_terminates (N : Number) (fuel : nat) (this : Quadtree.t)
  (object : Quadtree.Object) :
  wellFormed this ->
  (Z.to_nat (Quadtree.maxDepth this - Quadtree.depth this) < fuel)%nat ->
  exists this' r,
    Quadtree.insert fuel this object = Some (this', r)
    /\ wellFormed this'
    /\ Quadtree.maxDepth this' = Quadtree.maxDepth this
    /\ Quadtree.depth this' = Quadtree.depth this.
Proof. apply insert_total_wellFormed. Qed.

(** The theorem on [arena] with [straddler] stored and [cornerBall] inserted:
    the depth limit is 5 and six nested calls are enough. *)
Lemma insert_terminates_witness :
  exists this' r,
    Quadtree.insert 6 (Quadtree.set_objects arena [straddler]) cornerBall
    = Some (this', r)
    /\ wellFormed this'
    /\ Quadtree.maxDepth this' = 5%Z
    /\ Quadtree.depth this' = 0%Z.
Proof.
  apply (insert_terminates FloatNumber 6 (Quadtree.set_objects arena [straddler])
           cornerBall).
  - reflexivity.
  - vm_compute. lia.
Defined.

Lemma tidy_children `{Number} (children : list Quadtree.t) :
  fold_right (fun child rest => tidy child /\ rest) True children
  <-> Forall tidy children.
Proof.
  induction children as [|child rest IH]; simpl.
  - split; auto.
  - rewrite Forall_cons_iff, IH. reflexivity.
Qed.

Section Preserved.
Context `{Number}.
Variable insert' : Quadtree.t -> Quadtree.Object -> option (Quadtree.t * Quadtree.returned).
Variable Q : Quadtree.t -> Prop.
Hypothesis insert_keeps :
  forall child object child' r,
    insert' child object = Some (child', r) -> Q child -> Q child'.

Lemma insertInto_keeps (children : list Quadtree.t) (object : Quadtree.Object) children' :
  Quadtree.insertInto insert' children object = Some children' ->
  Forall Q children -> Forall Q children'.
Proof.
  revert children'. induction children as [|child rest IH];
    intros children' Hi Hq; simpl in Hi.
  - injection Hi as <-. constructor.
  - inversion Hq as [|? ? Hc Hrest]; subst.
    destruct (Quadtree.contains child object).
    + destruct (insert' child object) as [[child' r]|] eqn:Hins; [|discriminate].
      simpl in Hi.
      destruct (Quadtree.insertInto insert' rest object) as [rest'|];
        [|discriminate].
      injection Hi as <-. constructor; [eapply insert_keeps; eauto|].
      now apply IH.
    + destruct (Quadtree.insertInto insert' rest object) as [rest'|];
        [|discriminate].
      injection Hi as <-. constructor; [exact Hc|now apply IH].
Qed.

Lemma redistribute_keeps (objects : list Quadtree.Object) :
  forall this this',
    Quadtree.redistribute insert' this objects = Some this' ->
    Forall Q (Quadtree.children this) ->
    Forall Q (Quadtree.children this')
    /\ this' = Quadtree.set_children this (Quadtree.children this').
Proof.
  induction objects as [|object rest IH]; intros this this' Hr Hq; simpl in Hr.
  - injection Hr as <-. split; [exact Hq|now destruct this].
  - unfold Quadtree.insertToChildren in Hr.
    destruct (Quadtree.insertInto insert' (Quadtree.children this) object)
      as [children'|] eqn:Hi; [|discriminate].
    simpl in Hr. apply IH in Hr.
    + destruct Hr as [Hq' Heq]. split; [exact Hq'|].
      rewrite Heq at 1. now destruct this.
    + destruct this; cbn. eapply insertInto_keeps; eauto.
Qed.

End Preserved.

Lemma insert_keeps_tidy `{Number} (fuel : nat) :
  forall this object this' r,
    Quadtree.insert fuel this object = Some (this', r) ->
    tidy this -> tidy this'.
Proof.
  induction fuel as [|fuel IH]; intros this object this' r Hi Ht; [discriminate|].
  destruct this as [b c m d objs dv children].
  cbn [Quadtree.insert] in Hi.
  destruct (Quadtree.intersects _ object) eqn:Hint; cbn [negb] in Hi;
    [|injection Hi as <- <-; exact Ht].
  cbn [Quadtree.divided Quadtree.objects Quadtree.capacity Quadtree.depth
       Quadtree.maxDepth] in Hi.
  destruct Ht as [Hobjs Hrest].
  destruct (negb dv && _) eqn:Hroom.
  { injection Hi as <- <-. apply andb_true_iff in Hroom.
    destruct Hroom as [Hdv _]. apply negb_true_iff in Hdv. subst dv.
    split; [|exact Hrest].
    apply Forall_app. split; [exact Hobjs|]. repeat constructor. exact Hint. }
  destruct (d >=? m)%Z eqn:Hdm.
  { injection Hi as <- <-. destruct dv.
    - destruct Hrest as (_ & Hlt & _). apply Z.geb_le in Hdm. lia.
    - split; [|exact Hrest].
      apply Forall_app. split; [exact Hobjs|]. repeat constructor. exact Hint. }
  rewrite Z.geb_leb in Hdm. apply Z.leb_gt in Hdm.
  destruct dv; cbn [negb] in Hi.
  - destruct Hrest as (-> & _ & Hch). apply tidy_children in Hch.
    unfold Quadtree.insertToChildren in Hi. cbn [Quadtree.children] in Hi.
    destruct (Quadtree.insertInto _ children object) as [ch'|] eqn:Hins;
      [|discriminate].
    injection Hi as <- <-.
    split; [constructor|]. split; [reflexivity|]. split; [exact Hdm|].
    apply tidy_children. eapply insertInto_keeps; eauto.
  - subst children.
    unfold Quadtree.subdivide in Hi; cbv zeta in Hi.
    cbn [Quadtree.children Quadtree.objects skipn app] in Hi.
    match type of Hi with
    | context [Quadtree.redistribute _ ?t ?o] =>
        destruct (Quadtree.redistribute (Quadtree.insert fuel) t o)
          as [next|] eqn:Hred; [|discriminate];
        apply (redistribute_keeps _ tidy IH) in Hred
    end.
    + destruct Hred as [Hch1 Hnext]. cbn [option_map] in Hi.
      unfold Quadtree.insertToChildren in Hi.
      destruct (Quadtree.insertInto _ _ object) as [ch2|] eqn:Hins;
        [|discriminate].
      injection Hi as <- <-.
      assert (Hch2 : Forall tidy ch2).
      { eapply insertInto_keeps; [exact IH|exact Hins|].
        rewrite Hnext. exact Hch1. }
      rewrite Hnext. cbn.
      split; [constructor|]. split; [reflexivity|]. split; [exact Hdm|].
      now apply tidy_children.
    + cbn. repeat constructor.
Qed.

(** X23. [insert] keeps the tree tidy: in the constructor's leaf, and in every
    tree that inserts make of it, each stored object intersects the bounds of
    the node that stores it, and a divided node stores no object itself. *)
Theorem insert_keeps_tree_tidy (N : Number) (fuel : nat)
  (this this' : Quadtree.t) (object : Quadtree.Object) (r : Quadtree.returned) :
  tidy this ->
  Quadtree.insert fuel this object = Some (this', r) ->
  tidy this'.
Proof. intros Ht Hi. exact (insert_keeps_tidy fuel this object this' r Hi Ht). Qed.

Lemma new_tidy `{Number} bounds capacity maxDepth depth :
  tidy (Quadtree.new bounds capacity maxDepth depth).
Proof. split; [constructor|reflexivity]. Qed.

(** The theorem on [arena] with [farBall] stored and [cornerBall] inserted. *)
Lemma insert_keeps_tree_tidy_witness :
  tidy (Quadtree.Node
          (@Quadtree.bounds_of FloatNumber 0%float 0%float 100%float 100%float)
          1 5 0 [] true
          [ quadrant 50%float 0%float [];
            quadrant 0%float 0%float [cornerBall];
            quadrant 0%float 50%float [];
            quadrant 50%float 50%float [farBall] ]).
Proof.
  apply (insert_keeps_tree_tidy FloatNumber 2
           (Quadtree.set_objects arena [farBall]) _ cornerBall Quadtree.Undefined).
  - split; [repeat constructor|reflexivity].
  - reflexivity.
Defined.

(** ** Vector2D.distance and Vector2D.distanceSquared, on binary64 *)

(** X24. On binary64, for every two points, NaN and infinite coordinates
    included: [distance] and [distanceSquared] do not depend on the order of
    the points, and [distance] is never below zero.  Between (0, 0) and (3, 4)
    the distance is 5 and its square 25.  A distance of zero does not say that
    the points are the same: between (0, 0) and (2^-600, 0) the square
    underflows and the distance is 0. *)
Theorem distance_is_symmetric :
  (forall p q : @Vector2D.t FloatNumber,
      Vector2D.distance p q = Vector2D.distance q p
      /\ Vector2D.distanceSquared p q = Vector2D.distanceSquared q p
      /\ (Vector2D.distance p q <? of_Z 0)%js = false)
  /\ Vector2D.distance (@Vector2D.new FloatNumber 0%float 0%float)
                       (@Vector2D.new FloatNumber 3%float 4%float)
     = 5%float
  /\ Vector2D.distanceSquared (@Vector2D.new FloatNumber 0%float 0%float)
                              (@Vector2D.new FloatNumber 3%float 4%float)
     = 25%float
  /\ Vector2D.distance (@Vector2D.new FloatNumber 0%float 0%float)
                       (@Vector2D.new FloatNumber 0x1p-600%float 0%float)
     = 0%float.
Proof. split; [exact float_distance_symmetric|repeat split; reflexivity]. Qed.

(** ** Quadtree.contains and Quadtree.intersects, over the reals *)

(** X25. Over the reals, a node that contains an object of radius [>= 0] also
    intersects it, so a child that [insertToChildren] picks with [contains]
    does not turn the object away: its [insert] does not answer false. *)
Theorem contained_object_is_accepted (this : @Quadtree.t RealNumber)
  (object : @Quadtree.Object RealNumber) (fuel : nat) :
  (0 <= Ball.size (Quadtree.ball object))%R ->
  Quadtree.contains this object = true ->
  Quadtree.intersects this object = true
  /\ Quadtree.insert (S fuel) this object
     <> Some (this, Quadtree.Returned false).
Proof.
  intros Hs Hc.
  assert (Hi : Quadtree.intersects this object = true).
  { unfold Quadtree.contains, Quadtree.intersects in *; cbv zeta in *.
    change (@leb RealNumber) with Rleb in Hc. change (@ltb RealNumber) with Rltb.
    change (@sub RealNumber) with Rminus in *.
    change (@add RealNumber) with Rplus in *.
    repeat (apply andb_true_iff in Hc; destruct Hc as [Hc ?]).
    repeat match goal with
           | H : Rleb _ _ = true |- _ => apply Rleb_true in H
           end.
    apply negb_true_iff.
    repeat (apply orb_false_iff; split); apply Rltb_false; lra. }
  split; [exact Hi|].
  cbn [Quadtree.insert]. rewrite Hi; cbn [negb].
  destruct (negb (Quadtree.divided this) && _); [discriminate|].
  destruct (Quadtree.depth this >=? Quadtree.maxDepth this)%Z; [discriminate|].
  destruct (if negb (Quadtree.divided this) then _ else _) as [next|];
    [|discriminate].
  destruct (Quadtree.insertToChildren _ next object); discriminate.
Qed.

(** The theorem on [realQuadrant] and [realBall]. *)
Lemma contained_object_is_accepted_witness :
  Quadtree.intersects realQuadrant realBall = true
  /\ Quadtree.insert 1 realQuadrant realBall
     <> Some (realQuadrant, Quadtree.Returned false).
Proof.
  apply (contained_object_is_accepted realQuadrant realBall 0).
  - simpl; lra.
  - unfold Quadtree.contains; cbv zeta.
    change (@leb RealNumber) with Rleb.
    repeat (apply andb_true_iff; split); apply Rleb_true; simpl; lra.
Defined.

(** ** PhysicsSystem.update and Engine.update: what stays *)

Lemma kept_refl `{Number} (ball : Ball.t) : kept ball ball.
Proof. split; auto. Qed.

Lemma kept_trans `{Number} (a b c : Ball.t) : kept a b -> kept b c -> kept a c.
Proof.
  intros [Hab Hfab] [Hbc Hfbc]. split; [congruence|].
  intros Hf. specialize (Hfab Hf). subst b. auto.
Qed.

Lemma resolveCollision_kept `{Number} (ballA ballB : Ball.t) (dt : num) :
  kept ballA (fst (fst (PhysicsSystem.resolveCollision ballA ballB dt)))
  /\ kept ballB (snd (fst (PhysicsSystem.resolveCollision ballA ballB dt))).
Proof.
  destruct (resolveCollision_rest ballA ballB dt) as [HrA HrB].
  destruct (resolveCollision_frozen ballA ballB dt) as [HfA HfB].
  split; split; assumption.
Qed.

Lemma Forall2_nth_error {A B : Type} (R : A -> B -> Prop) l0 l i x :
  Forall2 R l0 l -> nth_error l i = Some x ->
  exists x0, nth_error l0 i = Some x0 /\ R x0 x.
Proof.
  intros HF; revert i. induction HF as [|a b l0 l Hab _ IH]; intros i Hi.
  - destruct i; discriminate.
  - destruct i as [|i]; simpl in *.
    + injection Hi as <-. eauto.
    + now apply IH.
Qed.

Lemma store_kept `{Number} (balls0 balls : list Ball.t) :
  Forall2 kept balls0 balls ->
  forall i ball0 ball,
    nth_error balls0 i = Some ball0 -> kept ball0 ball ->
    Forall2 kept balls0 (PhysicsSystem.store balls i ball).
Proof.
  induction 1 as [|a b l0 l Hab HF IH]; intros i ball0 ball Hi Hk.
  - destruct i; discriminate.
  - destruct i as [|i]; simpl in *.
    + injection Hi as <-. now constructor.
    + constructor; [exact Hab|]. eapply IH; eauto.
Qed.

Lemma resolveCollisions_kept `{Number} (balls0 : list Ball.t) (dt : num)
  (pairs : list (nat * nat)) :
  forall balls,
    Forall2 kept balls0 balls ->
    Forall2 kept balls0 (fst (PhysicsSystem.resolveCollisions pairs balls dt)).
Proof.
  induction pairs as [|[i j] rest IH]; intros balls HF; [exact HF|].
  simpl.
  destruct (nth_error balls i) as [ballA|] eqn:HA; [|now apply IH].
  destruct (nth_error balls j) as [ballB|] eqn:HB; [|now apply IH].
  destruct (Forall2_nth_error _ _ _ i ballA HF HA) as (a0 & Ha0 & Hka).
  destruct (Forall2_nth_error _ _ _ j ballB HF HB) as (b0 & Hb0 & Hkb).
  destruct (resolveCollision_kept ballA ballB dt) as [HkA HkB].
  assert (Hstored :
            Forall2 kept balls0
              (PhysicsSystem.store
                 (PhysicsSystem.store balls i
                    (fst (fst (PhysicsSystem.resolveCollision ballA ballB dt))))
                 j (snd (fst (PhysicsSystem.resolveCollision ballA ballB dt))))).
  { eapply store_kept; [eapply store_kept; [exact HF|exact Ha0|]|exact Hb0|];
      eapply kept_trans; eauto. }
  destruct (snd (PhysicsSystem.resolveCollision ballA ballB dt));
    [now apply IH|exact Hstored].
Qed.

(** X26. [PhysicsSystem.update] keeps the population: the array it leaves has
    the same length, every ball at its index has the id, size, gravity, mass,
    frozen flag and acceleration it had, and a frozen ball is the same in every
    field; this holds also when a resolution throws part-way. *)
Theorem physics_update_keeps_population (N : Number) (balls : list Ball.t)
  (dt : num) :
  Forall2 kept balls (fst (PhysicsSystem.update balls dt))
  /\ List.length (fst (PhysicsSystem.update balls dt)) = List.length balls.
Proof.
  assert (HF : Forall2 kept balls (fst (PhysicsSystem.update balls dt))).
  { unfold PhysicsSystem.update.
    assert (Hrefl : Forall2 kept balls balls).
    { induction balls; constructor; [apply kept_refl|assumption]. }
    destruct (List.length balls <=? 1)%nat; [exact Hrefl|].
    now apply resolveCollisions_kept. }
  split; [exact HF|]. symmetry. eapply Forall2_length; eauto.
Qed.

Lemma tick_body `{Number} (d : Engine.Dimensions) (dt : num) (ball : Ball.t) :
  bodyOf (tick d dt ball) = bodyOf ball.
Proof.
  unfold tick.
  assert (Hb : forall b, bodyOf (Engine.boundaryChecks d b) = bodyOf b).
  { intros b. unfold Engine.boundaryChecks, Engine.checkX, Engine.checkY.
    repeat match goal with
           | |- context [if ?c then _ else _] => destruct c
           end; reflexivity. }
  rewrite Hb.
  destruct (Ball.isFrozen ball) eqn:Hf.
  - unfold Ball.update. now rewrite Hf.
  - rewrite (Ball_update_free ball dt Hf). unfold bodyOf; cbn. now rewrite Hf.
Qed.

(** X27. [Engine.update] returns and keeps the population: the same number of
    balls, and at every index a ball with the id, size, gravity, mass and
    frozen flag of the ball that was there. *)
Theorem engine_update_keeps_population (N : Number) (e : Engine.t) (dt : num) :
  snd (Engine.update e dt) = Normal
  /\ map bodyOf (Engine.balls (fst (Engine.update e dt)))
     = map bodyOf (Engine.balls e)
  /\ Engine.isPaused (fst (Engine.update e dt)) = Engine.isPaused e
  /\ Engine.canvas (fst (Engine.update e dt)) = Engine.canvas e.
Proof.
  rewrite Engine_update_ticks.
  destruct (Engine.isPaused e) eqn:Hp; cbn [fst snd]; [auto|].
  split; [reflexivity|]. split; [|now split].
  cbn [Engine.balls Engine.set_balls]. rewrite map_map.
  apply map_ext. intros ball. apply tick_body.
Qed.
